(** * sulla: the [Whatsapp] session facade of src/api/whatsapp.ts

    The facade drives a browser page in which the [WAPI] functions have been
    injected.  Every public method evaluates a small closure inside the page
    and hands back what the page yields; [getAllGroups] filters the result and
    [getGroupMembers] joins several lookups with [Promise.all].

    The development is a shallow embedding with two layers of effects:
    - [Remote]: synchronous code running inside the page.  It threads the
      state of the page, logs every [WAPI] function it invokes, and may throw.
    - [Async]: the [async] methods of the facade on the Node side.  They
      thread the [Whatsapp] object, the page context and the log of the
      operations issued on the page handle, and they produce the eventual
      state of the promise they return. *)

From stdpp Require Import base list strings.

(** ** Values crossing the automation boundary *)

(** A failure is the error value carried by a JavaScript [throw] or by a
    rejected promise. *)
Definition Failure : Type := string.

(** The result of running synchronous JavaScript: it returns or it throws. *)
Inductive Outcome (A : Type) : Type :=
| Returned (v : A)
| Thrown (e : Failure).
Arguments Returned {A} v.
Arguments Thrown {A} e.

(** The three states of a promise. *)
Inductive PromiseState (A : Type) : Type :=
| Pending
| Fulfilled (v : A)
| Rejected (e : Failure).
Arguments Pending {A}.
Arguments Fulfilled {A} v.
Arguments Rejected {A} e.

(** Modelled from the spec: model/id.ts is not part of the sources at hand;
    section 3 of the specification describes an identifier as a wrapper
    holding its raw string form under the field [_serialized], which is the
    field [getGroupMembers] reads. *)
Record Id : Type := { _serialized : string }.

(** Modelled from the spec: model/chat.ts is not part of the sources at hand;
    section 3 of the specification lists the attributes of a chat as an
    identifier, a group flag and an unread-state flag. *)
Record Chat : Type := {
  chat_id : Id;
  isGroup : bool;
  chat_unread : bool
}.

(** A promise for the result of synchronous code settles as the code ends. *)
Definition settle {A : Type} (r : Outcome A) : PromiseState A :=
  match r with
  | Returned v => Fulfilled v
  | Thrown e => Rejected e
  end.

(** A handle on a value living in the page, as [evaluateHandle] returns. *)
Inductive JSHandle (A : Type) : Type := Handle (v : A).
Arguments Handle {A} v.

(** ** Promises as objects

    A promise object remembers its state and how many times it has been
    settled.  [resolve] and [reject] act on a pending promise only; on a
    settled promise they do nothing. *)
Module Promise.

Record t (A : Type) : Type := {
  state : PromiseState A;
  settlements : nat
}.
Arguments state {A} _.
Arguments settlements {A} _.

Definition fresh {A : Type} : t A :=
  {| state := Pending; settlements := 0 |}.

Definition resolve {A : Type} (v : A) (p : t A) : t A :=
  match state p with
  | Pending => {| state := Fulfilled v; settlements := S (settlements p) |}
  | _ => p
  end.

Definition reject {A : Type} (e : Failure) (p : t A) : t A :=
  match state p with
  | Pending => {| state := Rejected e; settlements := S (settlements p) |}
  | _ => p
  end.

(** The count of settlements agrees with the state: none while pending,
    one from then on. *)
Definition counted {A : Type} (p : t A) : Prop :=
  settlements p = match state p with Pending => 0 | _ => 1 end.

(** What a callback-style page function does with the callback it is
    given: the arguments of the invocations it makes before it returns or
    throws, the failure it throws (if any), and the arguments of the
    invocations made later from the event loop of the page. *)
Record CallbackRun (A : Type) : Type := {
  fired_during : list A;
  raised : option Failure;
  fired_after : list A
}.
Arguments fired_during {A} _.
Arguments raised {A} _.
Arguments fired_after {A} _.

Definition invocations {A : Type} (r : CallbackRun A) : nat :=
  length (fired_during r) + length (fired_after r).

(** The callback is run once per invocation, in order. *)
Definition fire {A B : Type} (callback : A -> t B -> t B)
    (args : list A) (p : t B) : t B :=
  fold_left (fun q a => callback a q) args p.

(** [new Promise(executor)] where the executor passes [callback] to a
    callback-style function behaving as [r]: a throw of the executor
    rejects the promise (when it is still pending). *)
Definition construct {A B : Type} (callback : A -> t B -> t B)
    (r : CallbackRun A) : t B :=
  let during := fire callback (fired_during r) fresh in
  let returned :=
    match raised r with
    | Some e => reject e during
    | None => during
    end in
  fire callback (fired_after r) returned.

(** ** [Promise.all]

    The state kept by [Promise.all] over [n] promises: the array of values
    (a slot is [None] until its promise fulfils), the count of promises
    still to fulfil, and the promise handed to the caller. *)
Record AllState (A : Type) : Type := {
  values : list (option A);
  remainingElementsCount : nat;
  capability : t (list (option A))
}.
Arguments values {A} _.
Arguments remainingElementsCount {A} _.
Arguments capability {A} _.

(** Registration of the [n] input promises.  With no input the returned
    promise is resolved at once with the empty array. *)
Definition all_start {A : Type} (n : nat) : AllState A :=
  {| values := replicate n None;
     remainingElementsCount := n;
     capability := if Nat.eqb n 0 then resolve [] fresh else fresh |}.

(** Reaction to the settlement of the promise at [index]. *)
Definition all_settle {A : Type} (index : nat) (o : PromiseState A)
    (s : AllState A) : AllState A :=
  match o with
  | Fulfilled v =>
      let values' := <[index := Some v]> (values s) in
      let remaining := pred (remainingElementsCount s) in
      {| values := values';
         remainingElementsCount := remaining;
         capability := if Nat.eqb remaining 0
                       then resolve values' (capability s)
                       else capability s |}
  | Rejected e =>
      {| values := values s;
         remainingElementsCount := remainingElementsCount s;
         capability := reject e (capability s) |}
  | Pending => s
  end.

(** The promise at [index] settles: its reaction runs. *)
Definition all_react {A : Type} (promises : list (PromiseState A))
    (s : AllState A) (index : nat) : AllState A :=
  match promises !! index with
  | Some o => all_settle index o s
  | None => s
  end.

(** [Promise.all(promises)], where [order] lists the indices of the input
    promises in the order in which they settle. *)
Definition all {A : Type} (order : list nat) (promises : list (PromiseState A))
    : PromiseState (list (option A)) :=
  state (capability
    (fold_left (all_react promises) order (all_start (length promises)))).

End Promise.

(** ** The page context and the injected API *)

(** One constructor per function of the ambient [WAPI] module that the facade
    can name, carrying the arguments of the invocation. *)
Inductive WapiCall : Type :=
| Call_sendMessage (to content : string)
| Call_ReplyMessage (messageId content : string)
| Call_sendSeen (to : string)
| Call_getAllContacts
| Call_getAllChats
| Call_getAllChatsWithNewMsg
| Call_getAllGroups
| Call_getMessageById (messageId : string)
| Call_getGroupParticipantIDs (groupId : string)
| Call_getContact (contactId : string)
| Call_sendContact (to : string) (contact : string + list string)
| Call_loadAllEarlierMessages (chatId : string)
| Call_loadEarlierMessages (chatId : string)
| Call_areAllMessagesLoaded (chatId : string)
| Call_getAllMessagesInChat (chatId : string)
| Call_getGroupMetadata (groupId : string)
| Call_getProfilePicFromId (id : string).

Module WAPI.
Section Surface.

(** The state of the web client, and the records it hands out, are opaque
    to the facade. *)
Context {World Contact Message Metadata Any Image : Type}.

(** What stands behind the declarations of [declare module WAPI]: each
    function reads and updates the state of the page and returns or throws;
    a callback-style function reports how it uses its callback. *)
Record Stub : Type := {
  stub_sendMessage : string -> string -> World -> Outcome unit * World;
  stub_ReplyMessage : string -> string -> World -> Outcome unit * World;
  stub_sendSeen : string -> World -> Outcome unit * World;
  stub_getAllContacts : World -> Outcome (list Contact) * World;
  stub_getAllChats : World -> Outcome (list Chat) * World;
  stub_getAllChatsWithNewMsg : World -> Outcome (list Chat) * World;
  stub_getAllGroups : World -> Outcome (list Chat) * World;
  stub_getMessageById : string -> World -> Outcome Message * World;
  stub_getGroupParticipantIDs : string -> World -> Outcome (list Id) * World;
  stub_getContact : string -> World -> Outcome Contact * World;
  stub_sendContact :
    string -> string + list string -> World -> Outcome Any * World;
  stub_loadAllEarlierMessages :
    string -> World -> Promise.CallbackRun unit * World;
  stub_loadEarlierMessages :
    string -> World -> Promise.CallbackRun unit * World;
  stub_areAllMessagesLoaded : string -> World -> Outcome bool * World;
  stub_getAllMessagesInChat :
    string -> World -> Outcome (list Message) * World;
  stub_getGroupMetadata : string -> World -> Outcome Metadata * World;
  stub_getProfilePicFromId :
    string -> World -> Promise.CallbackRun Image * World
}.

(** The page: the state of the client and the invocations of [WAPI]
    functions made so far, oldest first. *)
Record PageContext : Type := {
  world : World;
  calls : list WapiCall
}.

(** Synchronous code running in the page. *)
Definition Remote (A : Type) : Type := PageContext -> Outcome A * PageContext.

Definition ret {A : Type} (v : A) : Remote A := fun c => (Returned v, c).

Definition bind {A B : Type} (m : Remote A) (k : A -> Remote B) : Remote B :=
  fun c =>
    match m c with
    | (Returned v, c') => k v c'
    | (Thrown e, c') => (Thrown e, c')
    end.

(** Invoking a function of the page logs the invocation and runs it. *)
Definition invoke {A : Type} (call : WapiCall)
    (f : World -> Outcome A * World) : Remote A :=
  fun c =>
    let '(r, w) := f (world c) in
    (r, {| world := w; calls := calls c ++ [call] |}).

(** A callback-style function: the invocation is logged, and its use of
    the callback is what the caller gets to see. *)
Definition invoke_callback {A : Type} (call : WapiCall)
    (f : World -> Promise.CallbackRun A * World)
    : Remote (Promise.CallbackRun A) :=
  fun c =>
    let '(r, w) := f (world c) in
    (Returned r, {| world := w; calls := calls c ++ [call] |}).

(** [new Promise(resolve => source(..., callback))] inside the page. *)
Definition new_Promise {A B : Type} (source : Remote (Promise.CallbackRun A))
    (callback : A -> Promise.t B -> Promise.t B) : Remote (Promise.t B) :=
  bind source (fun r => ret (Promise.construct callback r)).

Variable wapi : Stub.

Definition sendMessage (to content : string) : Remote unit :=
  invoke (Call_sendMessage to content) (stub_sendMessage wapi to content).
Definition ReplyMessage (messageId content : string) : Remote unit :=
  invoke (Call_ReplyMessage messageId content)
         (stub_ReplyMessage wapi messageId content).
Definition sendSeen (to : string) : Remote unit :=
  invoke (Call_sendSeen to) (stub_sendSeen wapi to).
Definition getAllContacts : Remote (list Contact) :=
  invoke Call_getAllContacts (stub_getAllContacts wapi).
Definition getAllChats : Remote (list Chat) :=
  invoke Call_getAllChats (stub_getAllChats wapi).
Definition getAllChatsWithNewMsg : Remote (list Chat) :=
  invoke Call_getAllChatsWithNewMsg (stub_getAllChatsWithNewMsg wapi).
Definition getAllGroups : Remote (list Chat) :=
  invoke Call_getAllGroups (stub_getAllGroups wapi).
Definition getMessageById (messageId : string) : Remote Message :=
  invoke (Call_getMessageById messageId) (stub_getMessageById wapi messageId).
Definition getGroupParticipantIDs (groupId : string) : Remote (list Id) :=
  invoke (Call_getGroupParticipantIDs groupId)
         (stub_getGroupParticipantIDs wapi groupId).
Definition getContact (contactId : string) : Remote Contact :=
  invoke (Call_getContact contactId) (stub_getContact wapi contactId).
Definition sendContact (to : string) (contact : string + list string)
    : Remote Any :=
  invoke (Call_sendContact to contact) (stub_sendContact wapi to contact).
Definition loadAllEarlierMessages (chatId : string)
    : Remote (Promise.CallbackRun unit) :=
  invoke_callback (Call_loadAllEarlierMessages chatId)
                  (stub_loadAllEarlierMessages wapi chatId).
Definition loadEarlierMessages (chatId : string)
    : Remote (Promise.CallbackRun unit) :=
  invoke_callback (Call_loadEarlierMessages chatId)
                  (stub_loadEarlierMessages wapi chatId).
Definition areAllMessagesLoaded (chatId : string) : Remote bool :=
  invoke (Call_areAllMessagesLoaded chatId)
         (stub_areAllMessagesLoaded wapi chatId).
Definition getAllMessagesInChat (chatId : string) : Remote (list Message) :=
  invoke (Call_getAllMessagesInChat chatId)
         (stub_getAllMessagesInChat wapi chatId).
Definition getGroupMetadata (groupId : string) : Remote Metadata :=
  invoke (Call_getGroupMetadata groupId) (stub_getGroupMetadata wapi groupId).
Definition getProfilePicFromId (id : string)
    : Remote (Promise.CallbackRun Image) :=
  invoke_callback (Call_getProfilePicFromId id)
                  (stub_getProfilePicFromId wapi id).

End Surface.
Arguments Stub : clear implicits.
Arguments PageContext : clear implicits.
Arguments Remote : clear implicits.
End WAPI.

Declare Scope remote_scope.
Delimit Scope remote_scope with remote.
Notation "x <- c ;; k" := (WAPI.bind c (fun x => k))
  (at level 100, c at next level, right associativity) : remote_scope.
Notation "c ;; k" := (WAPI.bind c (fun _ => k))
  (at level 100, right associativity) : remote_scope.

(** ** The session facade *)

(** Modelled from the spec: the automation layer is an external
    collaborator; section 6 of the specification requires that it evaluates
    a closure inside the page and hands back what the closure yields, and
    that it exposes a local callback to the page.  These are the operations
    on a page handle; closing the page is part of its surface too. *)
Inductive PageOp : Type :=
| Op_evaluate
| Op_evaluateHandle
| Op_exposeFunction (name : string)
| Op_close.

Module Whatsapp.
Section Facade.

Context {World Contact Message Metadata Any Image : Type}.
(** [Page] is the handle of the automation library, [Effect] what a message
    handler of the client program does. *)
Context {Page Effect : Type}.

Local Abbreviation Stub := (WAPI.Stub World Contact Message Metadata Any Image).
Local Abbreviation PageContext := (WAPI.PageContext World).
Local Abbreviation Remote := (WAPI.Remote World).

(** [class Whatsapp { constructor(public page: Page) ... }] *)
Record t : Type := { page : Page }.

Definition set_page (p : Page) (_ : t) : t := {| page := p |}.

(** The parameter property declares and assigns the field; the body of the
    constructor assigns it once more. *)
Definition constructor (p : Page) : t := set_page p {| page := p |}.

(** The Node side: the facade object, the page its handle stands for, the
    operations issued on page handles so far and the functions exposed to
    the page. *)
Record Node : Type := {
  this : t;
  remote : PageContext;
  issued : list (Page * PageOp);
  exposed : list (string * (Message -> Effect))
}.

(** An [async] method: it runs against the Node side and produces the
    eventual state of the promise it returns ([Pending]: never settled). *)
Definition Async (A : Type) : Type := Node -> PromiseState A * Node.

Definition ret {A : Type} (v : A) : Async A := fun n => (Fulfilled v, n).

(** [const x = await m; k x] *)
Definition bind {A B : Type} (m : Async A) (k : A -> Async B) : Async B :=
  fun n =>
    match m n with
    | (Fulfilled v, n') => k v n'
    | (Rejected e, n') => (Rejected e, n')
    | (Pending, n') => (Pending, n')
    end.

Definition log (op : PageOp) (c : PageContext) (n : Node) : Node :=
  {| this := this n;
     remote := c;
     issued := issued n ++ [(page (this n), op)];
     exposed := exposed n |}.

(** [this.page.evaluate(pageFunction, ...args)], as section 6 of the
    specification requires it of the automation layer: the closure runs in
    the page; what it returns fulfils the promise, what it throws rejects
    it. *)
Definition evaluate {A : Type} (pageFunction : Remote A) : Async A :=
  fun n =>
    let '(r, c) := pageFunction (remote n) in
    (settle r, log Op_evaluate c n).

(** [this.page.evaluateHandle(pageFunction, ...args)]: the promise the
    closure returns is awaited, and a handle on its value is handed back. *)
Definition evaluateHandle {A : Type} (pageFunction : Remote (Promise.t A))
    : Async (JSHandle A) :=
  fun n =>
    let '(r, c) := pageFunction (remote n) in
    (match r with
     | Returned p =>
         match Promise.state p with
         | Fulfilled v => Fulfilled (Handle v)
         | Rejected e => Rejected e
         | Pending => Pending
         end
     | Thrown e => Rejected e
     end,
     log Op_evaluateHandle c n).

(** [this.page.exposeFunction(name, fn)]: the operation is issued on the
    page handle and the registration asked for is recorded.  [onMessage]
    drops the promise the operation returns, so whether the registration
    takes effect in the page is not observed by the facade and is not
    modelled here. *)
Definition exposeFunction (name : string) (fn : Message -> Effect)
    (n : Node) : Node :=
  {| this := this n;
     remote := remote n;
     issued := issued n ++ [(page (this n), Op_exposeFunction name)];
     exposed := exposed n ++ [(name, fn)] |}.

(** [xs.map(x => f(x))] where [f] is an [async] function: the calls are
    started one after the other and their promises collected. *)
Fixpoint map_async {A B : Type} (f : A -> Async B) (xs : list A) (n : Node)
    : list (PromiseState B) * Node :=
  match xs with
  | [] => ([], n)
  | x :: rest =>
      let '(p, n1) := f x n in
      let '(ps, n2) := map_async f rest n1 in
      (p :: ps, n2)
  end.

Definition started {A : Type} (m : Node -> A * Node) : Async A :=
  fun n => let '(v, n') := m n in (Fulfilled v, n').

Local Notation "x <- c ;; k" := (bind c (fun x => k))
  (at level 100, c at next level, right associativity).

Variable wapi : Stub.

(** The name under which the message handler is exposed:
    [ExposedFn.OnMessage] of functions/exposed.enum.ts. *)
Variable ExposedFn_OnMessage : string.

(** The order in which promises started together settle is up to the
    environment: [completion_order k] lists the indices of [k] such
    promises, first settled first. *)
Variable completion_order : nat -> list nat.

Definition Promise_all {A : Type} (actions : list (PromiseState A))
    : Async (list (option A)) :=
  fun n => (Promise.all (completion_order (length actions)) actions, n).

Definition onMessage (fn : Message -> Effect) (n : Node) : Node :=
  exposeFunction ExposedFn_OnMessage (fun message => fn message) n.

Definition sendText (to content : string) : Async unit :=
  r <- evaluate
         (WAPI.sendSeen wapi to ;;
          WAPI.sendMessage wapi to content)%remote ;;
  ret r.

Definition replyMessage (messageId content : string) : Async unit :=
  r <- evaluate (WAPI.ReplyMessage wapi messageId content) ;;
  ret r.

Definition sendContact (to : string) (contactId : string + list string)
    : Async Any :=
  r <- evaluate (WAPI.sendContact wapi to contactId) ;;
  ret r.

Definition getAllContacts : Async (list Contact) :=
  r <- evaluate (WAPI.getAllContacts wapi) ;;
  ret r.

Definition getAllChats (withNewMessageOnly : bool) : Async (list Chat) :=
  if withNewMessageOnly then
    r <- evaluate (WAPI.getAllChatsWithNewMsg wapi) ;;
    ret r
  else
    r <- evaluate (WAPI.getAllChats wapi) ;;
    ret r.

Definition getAllGroups (withNewMessagesOnly : bool) : Async (list Chat) :=
  if withNewMessagesOnly then
    chats <- evaluate (WAPI.getAllChatsWithNewMsg wapi) ;;
    ret (List.filter (fun chat => isGroup chat) chats)
  else
    chats <- evaluate (WAPI.getAllChats wapi) ;;
    ret (List.filter (fun chat => isGroup chat) chats).

Definition getGroupMembersId (groupId : string) : Async (list Id) :=
  r <- evaluate (WAPI.getGroupParticipantIDs wapi groupId) ;;
  ret r.

Definition getContact (contactId : string) : Async Contact :=
  r <- evaluate (WAPI.getContact wapi contactId) ;;
  ret r.

Definition getGroupMembers (groupId : string)
    : Async (list (option Contact)) :=
  membersIds <- getGroupMembersId groupId ;;
  actions <- started
               (map_async (fun memberId => getContact (_serialized memberId))
                          membersIds) ;;
  r <- Promise_all actions ;;
  ret r.

Definition getGroupMetadata (groupId : string) : Async Metadata :=
  r <- evaluate (WAPI.getGroupMetadata wapi groupId) ;;
  ret r.

(** The closure handed to [evaluateHandle] by [getProfilePicFromId]. *)
Definition getProfilePicFromId_pageFunction (id : string)
    : Remote (Promise.t Image) :=
  WAPI.new_Promise (WAPI.getProfilePicFromId wapi id)
                   (fun img => Promise.resolve img).

Definition getProfilePicFromId (id : string) : Async (JSHandle Image) :=
  r <- evaluateHandle (getProfilePicFromId_pageFunction id) ;;
  ret r.

Definition getMessageById (messageId : string) : Async Message :=
  r <- evaluate (WAPI.getMessageById wapi messageId) ;;
  ret r.

Definition areAllMessagesLoaded (chatId : string) : Async bool :=
  r <- evaluate (WAPI.areAllMessagesLoaded wapi chatId) ;;
  ret r.

(** The closure handed to [evaluateHandle] by [loadEarlierMessagesInChat]. *)
Definition loadEarlierMessagesInChat_pageFunction (chatId : string)
    : Remote (Promise.t unit) :=
  WAPI.new_Promise (WAPI.loadEarlierMessages wapi chatId)
                   (fun _ => Promise.resolve tt).

Definition loadEarlierMessagesInChat (chatId : string)
    : Async (JSHandle unit) :=
  r <- evaluateHandle (loadEarlierMessagesInChat_pageFunction chatId) ;;
  ret r.

Definition loadAllEarlierMessagesInChat_pageFunction (chatId : string)
    : Remote (Promise.t unit) :=
  WAPI.new_Promise (WAPI.loadAllEarlierMessages wapi chatId)
                   (fun _ => Promise.resolve tt).

Definition loadAllEarlierMessagesInChat (chatId : string)
    : Async (JSHandle unit) :=
  r <- evaluateHandle (loadAllEarlierMessagesInChat_pageFunction chatId) ;;
  ret r.

Definition getAllMessagesInChat (chatId : string) : Async (list Message) :=
  r <- evaluate (WAPI.getAllMessagesInChat wapi chatId) ;;
  ret r.

(** A call of a public method, with its arguments. *)
Inductive MethodCall : Type :=
| M_onMessage (fn : Message -> Effect)
| M_sendText (to content : string)
| M_replyMessage (messageId content : string)
| M_sendContact (to : string) (contactId : string + list string)
| M_getAllContacts
| M_getAllChats (withNewMessageOnly : bool)
| M_getAllGroups (withNewMessagesOnly : bool)
| M_getGroupMembersId (groupId : string)
| M_getGroupMembers (groupId : string)
| M_getGroupMetadata (groupId : string)
| M_getProfilePicFromId (id : string)
| M_getContact (contactId : string)
| M_getMessageById (messageId : string)
| M_areAllMessagesLoaded (chatId : string)
| M_loadEarlierMessagesInChat (chatId : string)
| M_loadAllEarlierMessagesInChat (chatId : string)
| M_getAllMessagesInChat (chatId : string).

(** The Node side after a call, whatever the call yields. *)
Definition after (call : MethodCall) (n : Node) : Node :=
  match call with
  | M_onMessage fn => onMessage fn n
  | M_sendText to content => snd (sendText to content n)
  | M_replyMessage messageId content => snd (replyMessage messageId content n)
  | M_sendContact to contactId => snd (sendContact to contactId n)
  | M_getAllContacts => snd (getAllContacts n)
  | M_getAllChats b => snd (getAllChats b n)
  | M_getAllGroups b => snd (getAllGroups b n)
  | M_getGroupMembersId groupId => snd (getGroupMembersId groupId n)
  | M_getGroupMembers groupId => snd (getGroupMembers groupId n)
  | M_getGroupMetadata groupId => snd (getGroupMetadata groupId n)
  | M_getProfilePicFromId id => snd (getProfilePicFromId id n)
  | M_getContact contactId => snd (getContact contactId n)
  | M_getMessageById messageId => snd (getMessageById messageId n)
  | M_areAllMessagesLoaded chatId => snd (areAllMessagesLoaded chatId n)
  | M_loadEarlierMessagesInChat chatId =>
      snd (loadEarlierMessagesInChat chatId n)
  | M_loadAllEarlierMessagesInChat chatId =>
      snd (loadAllEarlierMessagesInChat chatId n)
  | M_getAllMessagesInChat chatId => snd (getAllMessagesInChat chatId n)
  end.

(** A client program: one call after the other on the same object. *)
Definition after_all (program : list MethodCall) (n : Node) : Node :=
  fold_left (fun m call => after call m) program n.

(** The Node side right after [new Whatsapp(p)], facing the page [c]. *)
Definition boot (p : Page) (c : PageContext) : Node :=
  {| this := constructor p; remote := c; issued := []; exposed := [] |}.

End Facade.
Arguments t : clear implicits.
Arguments Node : clear implicits.
End Whatsapp.

(** ** Reference behaviour of the page, used to state the properties *)

Section Lookups.
Context {World Contact Message Metadata Any Image : Type}.
Variable wapi : WAPI.Stub World Contact Message Metadata Any Image.

(** What the page answers to contact lookups for [keys], run one after the
    other from the state [w], and the state it ends in. *)
Fixpoint lookups (keys : list string) (w : World)
    : list (Outcome Contact) * World :=
  match keys with
  | [] => ([], w)
  | key :: rest =>
      let '(r, w1) := WAPI.stub_getContact wapi key w in
      let '(rs, w2) := lookups rest w1 in
      (r :: rs, w2)
  end.

(** The enumeration [getAllChats] and [getAllGroups] choose for a flag. *)
Definition enumeration (withNewMessagesOnly : bool)
    : World -> Outcome (list Chat) * World :=
  if withNewMessagesOnly
  then WAPI.stub_getAllChatsWithNewMsg wapi
  else WAPI.stub_getAllChats wapi.

Definition enumeration_call (withNewMessagesOnly : bool) : WapiCall :=
  if withNewMessagesOnly then Call_getAllChatsWithNewMsg else Call_getAllChats.

End Lookups.

(** The keyed reads of the facade. *)
Inductive KeyedRead : Type :=
| K_getContact
| K_getMessageById
| K_getGroupMetadata
| K_getGroupMembersId.

Definition thrown {A : Type} (r : Outcome A) : option Failure :=
  match r with
  | Thrown e => Some e
  | Returned _ => None
  end.

Definition rejection {A : Type} (r : PromiseState A) : option Failure :=
  match r with
  | Rejected e => Some e
  | _ => None
  end.

Definition PromiseState_map {A B : Type} (f : A -> B) (r : PromiseState A)
    : PromiseState B :=
  match r with
  | Pending => Pending
  | Fulfilled v => Fulfilled (f v)
  | Rejected e => Rejected e
  end.

Section KeyedReads.
Context {World Contact Message Metadata Any Image Page Effect : Type}.
Variable wapi : WAPI.Stub World Contact Message Metadata Any Image.

(** The failure, if any, of the [WAPI] function behind a keyed read. *)
Definition remote_failure (m : KeyedRead) (key : string) (w : World)
    : option Failure :=
  match m with
  | K_getContact => thrown (fst (WAPI.stub_getContact wapi key w))
  | K_getMessageById => thrown (fst (WAPI.stub_getMessageById wapi key w))
  | K_getGroupMetadata => thrown (fst (WAPI.stub_getGroupMetadata wapi key w))
  | K_getGroupMembersId =>
      thrown (fst (WAPI.stub_getGroupParticipantIDs wapi key w))
  end.

(** The failure, if any, with which the facade method rejects. *)
Definition facade_failure (m : KeyedRead) (key : string)
    (n : Whatsapp.Node World Message Page Effect) : option Failure :=
  match m with
  | K_getContact => rejection (fst (Whatsapp.getContact wapi key n))
  | K_getMessageById => rejection (fst (Whatsapp.getMessageById wapi key n))
  | K_getGroupMetadata => rejection (fst (Whatsapp.getGroupMetadata wapi key n))
  | K_getGroupMembersId =>
      rejection (fst (Whatsapp.getGroupMembersId wapi key n))
  end.

End KeyedReads.

(** ** The session handle across calls *)

Section Handle.
Context {World Message Page Effect : Type}.

(** From [n] to [n'] the facade object is the same, and every operation
    issued in between went to its page handle and did not close it. *)
Definition same_session (n n' : Whatsapp.Node World Message Page Effect)
    : Prop :=
  Whatsapp.this n' = Whatsapp.this n
  ∧ ∃ ops, Whatsapp.issued n' = Whatsapp.issued n ++ ops
           ∧ Forall (λ o, o.1 = Whatsapp.page (Whatsapp.this n)
                          ∧ o.2 ≠ Op_close) ops.

(** The [WAPI] functions invoked in the page between [n] and [n'], in the
    order of their invocation. *)
Definition invoked (n n' : Whatsapp.Node World Message Page Effect)
    : list WapiCall :=
  drop (length (WAPI.calls (Whatsapp.remote n)))
       (WAPI.calls (Whatsapp.remote n')).

(** An [async] computation that keeps the session from any state. *)
Definition keeps_session {A : Type}
    (m : @Whatsapp.Async World Message Page Effect A) : Prop :=
  ∀ n, same_session n (snd (m n)).

End Handle.

(** ** A stub page, for running the facade on concrete inputs *)

Module Demo.
Local Open Scope string_scope.

Definition chat (name : string) (group : bool) : Chat :=
  {| chat_id := {| _serialized := name |};
     isGroup := group;
     chat_unread := false |}.

(** The stub collection of chats: a group, a direct chat, a group. *)
Definition chats : list Chat :=
  [chat "family" true; chat "alice" false; chat "work" true].

Definition members (groupId : string) : list Id :=
  if String.eqb groupId "g1"
  then [{| _serialized := "a" |}; {| _serialized := "b" |}]
  else if String.eqb groupId "g2"
  then [{| _serialized := "a" |}; {| _serialized := "ghost" |};
        {| _serialized := "b" |}]
  else [].

Definition contact (contactId : string) : Outcome string :=
  if String.eqb contactId "ghost"
  then Thrown "no such contact"
  else Returned ("contact " +:+ contactId).

Definition once : Promise.CallbackRun unit :=
  {| Promise.fired_during := [];
     Promise.raised := None;
     Promise.fired_after := [tt] |}.

(** The state of the stub page is the number of messages it has sent. *)
Definition wapi : WAPI.Stub nat string string string unit string :=
  {| WAPI.stub_sendMessage := fun _ _ w => (Returned tt, S w);
     WAPI.stub_ReplyMessage := fun _ _ w => (Returned tt, S w);
     WAPI.stub_sendSeen := fun _ w => (Returned tt, w);
     WAPI.stub_getAllContacts := fun w => (Returned ["alice"; "bob"], w);
     WAPI.stub_getAllChats := fun w => (Returned chats, w);
     WAPI.stub_getAllChatsWithNewMsg :=
       fun w => (Returned [chat "work" true], w);
     WAPI.stub_getAllGroups := fun w => (Returned [], w);
     WAPI.stub_getMessageById := fun _ w => (Thrown "no such message", w);
     WAPI.stub_getGroupParticipantIDs := fun g w => (Returned (members g), w);
     WAPI.stub_getContact := fun c w => (contact c, w);
     WAPI.stub_sendContact := fun _ _ w => (Returned tt, S w);
     WAPI.stub_loadAllEarlierMessages := fun _ w => (once, w);
     WAPI.stub_loadEarlierMessages := fun _ w => (once, w);
     WAPI.stub_areAllMessagesLoaded := fun _ w => (Returned true, w);
     WAPI.stub_getAllMessagesInChat := fun _ w => (Returned [], w);
     WAPI.stub_getGroupMetadata := fun _ w => (Thrown "no such group", w);
     WAPI.stub_getProfilePicFromId :=
       fun _ w => ({| Promise.fired_during := ["png"];
                      Promise.raised := None;
                      Promise.fired_after := [] |}, w) |}.

(** The stub page with another loader of earlier messages. *)
Definition with_loader (run : Promise.CallbackRun unit)
    : WAPI.Stub nat string string string unit string :=
  {| WAPI.stub_sendMessage := WAPI.stub_sendMessage wapi;
     WAPI.stub_ReplyMessage := WAPI.stub_ReplyMessage wapi;
     WAPI.stub_sendSeen := WAPI.stub_sendSeen wapi;
     WAPI.stub_getAllContacts := WAPI.stub_getAllContacts wapi;
     WAPI.stub_getAllChats := WAPI.stub_getAllChats wapi;
     WAPI.stub_getAllChatsWithNewMsg := WAPI.stub_getAllChatsWithNewMsg wapi;
     WAPI.stub_getAllGroups := WAPI.stub_getAllGroups wapi;
     WAPI.stub_getMessageById := WAPI.stub_getMessageById wapi;
     WAPI.stub_getGroupParticipantIDs := WAPI.stub_getGroupParticipantIDs wapi;
     WAPI.stub_getContact := WAPI.stub_getContact wapi;
     WAPI.stub_sendContact := WAPI.stub_sendContact wapi;
     WAPI.stub_loadAllEarlierMessages := WAPI.stub_loadAllEarlierMessages wapi;
     WAPI.stub_loadEarlierMessages := fun _ w => (run, w);
     WAPI.stub_areAllMessagesLoaded := WAPI.stub_areAllMessagesLoaded wapi;
     WAPI.stub_getAllMessagesInChat := WAPI.stub_getAllMessagesInChat wapi;
     WAPI.stub_getGroupMetadata := WAPI.stub_getGroupMetadata wapi;
     WAPI.stub_getProfilePicFromId := WAPI.stub_getProfilePicFromId wapi |}.

(** The Node side after [new Whatsapp(7)], facing a page that has sent
    nothing and logged nothing. *)
Definition node : Whatsapp.Node nat string nat unit :=
  Whatsapp.boot 7 {| WAPI.world := 0; WAPI.calls := [] |}.

(** The environment settles the promises started together last first. *)
Definition last_first (k : nat) : list nat := rev (seq 0 k).

End Demo.

(** ** Calls as values, and what they are measured against *)

Section Dispatch.
Context {World Contact Message Metadata Any Image Page Effect : Type}.
Variable wapi : WAPI.Stub World Contact Message Metadata Any Image.
Variable ExposedFn_OnMessage : string.
Variable completion_order : nat → list nat.

Local Abbreviation MethodCall := (@Whatsapp.MethodCall Message Effect).
Local Abbreviation Async := (@Whatsapp.Async World Message Page Effect).

(** What a call of a public method yields to its caller. *)
Definition result_type (call : MethodCall) : Type :=
  match call with
  | Whatsapp.M_onMessage _ => unit
  | Whatsapp.M_sendText _ _ => unit
  | Whatsapp.M_replyMessage _ _ => unit
  | Whatsapp.M_sendContact _ _ => Any
  | Whatsapp.M_getAllContacts => list Contact
  | Whatsapp.M_getAllChats _ => list Chat
  | Whatsapp.M_getAllGroups _ => list Chat
  | Whatsapp.M_getGroupMembersId _ => list Id
  | Whatsapp.M_getGroupMembers _ => list (option Contact)
  | Whatsapp.M_getGroupMetadata _ => Metadata
  | Whatsapp.M_getProfilePicFromId _ => JSHandle Image
  | Whatsapp.M_getContact _ => Contact
  | Whatsapp.M_getMessageById _ => Message
  | Whatsapp.M_areAllMessagesLoaded _ => bool
  | Whatsapp.M_loadEarlierMessagesInChat _ => JSHandle unit
  | Whatsapp.M_loadAllEarlierMessagesInChat _ => JSHandle unit
  | Whatsapp.M_getAllMessagesInChat _ => list Message
  end.

(** A call of a public method, with what it yields.  [onMessage] is not
    [async]: it returns [undefined] at once. *)
Definition perform (call : MethodCall) : Async (result_type call) :=
  match call return Async (result_type call) with
  | Whatsapp.M_onMessage fn =>
      fun n => (Fulfilled (), Whatsapp.onMessage ExposedFn_OnMessage fn n)
  | Whatsapp.M_sendText to content => Whatsapp.sendText wapi to content
  | Whatsapp.M_replyMessage messageId content =>
      Whatsapp.replyMessage wapi messageId content
  | Whatsapp.M_sendContact to contactId =>
      Whatsapp.sendContact wapi to contactId
  | Whatsapp.M_getAllContacts => Whatsapp.getAllContacts wapi
  | Whatsapp.M_getAllChats b => Whatsapp.getAllChats wapi b
  | Whatsapp.M_getAllGroups b => Whatsapp.getAllGroups wapi b
  | Whatsapp.M_getGroupMembersId groupId =>
      Whatsapp.getGroupMembersId wapi groupId
  | Whatsapp.M_getGroupMembers groupId =>
      Whatsapp.getGroupMembers wapi completion_order groupId
  | Whatsapp.M_getGroupMetadata groupId =>
      Whatsapp.getGroupMetadata wapi groupId
  | Whatsapp.M_getProfilePicFromId id => Whatsapp.getProfilePicFromId wapi id
  | Whatsapp.M_getContact contactId => Whatsapp.getContact wapi contactId
  | Whatsapp.M_getMessageById messageId =>
      Whatsapp.getMessageById wapi messageId
  | Whatsapp.M_areAllMessagesLoaded chatId =>
      Whatsapp.areAllMessagesLoaded wapi chatId
  | Whatsapp.M_loadEarlierMessagesInChat chatId =>
      Whatsapp.loadEarlierMessagesInChat wapi chatId
  | Whatsapp.M_loadAllEarlierMessagesInChat chatId =>
      Whatsapp.loadAllEarlierMessagesInChat wapi chatId
  | Whatsapp.M_getAllMessagesInChat chatId =>
      Whatsapp.getAllMessagesInChat wapi chatId
  end.

(** The operation of the automation library a method is written with. *)
Definition operation_of (call : MethodCall) : PageOp :=
  match call with
  | Whatsapp.M_onMessage _ => Op_exposeFunction ExposedFn_OnMessage
  | Whatsapp.M_getProfilePicFromId _
  | Whatsapp.M_loadEarlierMessagesInChat _
  | Whatsapp.M_loadAllEarlierMessagesInChat _ => Op_evaluateHandle
  | _ => Op_evaluate
  end.

Definition is_getGroupMembers (call : MethodCall) : bool :=
  match call with
  | Whatsapp.M_getGroupMembers _ => true
  | _ => false
  end.

(** An [async] computation whose result, and whose effect on the page,
    depend on the page alone: not on the facade object nor on what was
    issued or exposed before. *)
Definition page_only {A : Type} (m : Async A) : Prop :=
  ∀ n1 n2,
    Whatsapp.remote n1 = Whatsapp.remote n2 →
    (m n1).1 = (m n2).1
    ∧ Whatsapp.remote (m n1).2 = Whatsapp.remote (m n2).2.

(** A client looking the members up itself, one [await] after the other:
    [for (const id of ids) contacts.push(await w.getContact(id._serialized))] *)
Fixpoint getContacts_in_turn (ids : list Id) : Async (list Contact) :=
  match ids with
  | [] => Whatsapp.ret []
  | memberId :: rest =>
      Whatsapp.bind (Whatsapp.getContact wapi (_serialized memberId))
        (fun contact =>
           Whatsapp.bind (getContacts_in_turn rest)
             (fun contacts => Whatsapp.ret (contact :: contacts)))
  end.

(** How the loader behind a callback-style method uses its callback, from
    the state [w] of the page: the number of invocations it makes before it
    returns or throws, the failure it throws, the number of invocations made
    later.  The other methods take no callback. *)
Definition callback_use (call : MethodCall) (w : World)
    : option (nat * option Failure * nat) :=
  let count {A : Type} (run : Promise.CallbackRun A) :=
    Some (length (Promise.fired_during run), Promise.raised run,
          length (Promise.fired_after run)) in
  match call with
  | Whatsapp.M_getProfilePicFromId id =>
      count (WAPI.stub_getProfilePicFromId wapi id w).1
  | Whatsapp.M_loadEarlierMessagesInChat chatId =>
      count (WAPI.stub_loadEarlierMessages wapi chatId w).1
  | Whatsapp.M_loadAllEarlierMessagesInChat chatId =>
      count (WAPI.stub_loadAllEarlierMessages wapi chatId w).1
  | _ => None
  end.

End Dispatch.

(** The failure of the first lookup to complete among those that fail,
    [order] listing the lookups in the order of their completion. *)
Fixpoint first_thrown {A : Type} (order : list nat)
    (outcomes : list (Outcome A)) : option Failure :=
  match order with
  | [] => None
  | index :: rest =>
      match outcomes !! index with
      | Some (Thrown e) => Some e
      | _ => first_thrown rest outcomes
      end
  end.

(** Each lookup completes at most once; some may never complete. *)
Definition at_most_once (order : list nat) (k : nat) : Prop :=
  NoDup order ∧ ∀ index, index ∈ order → index < k.

(** A loader that neither invokes its callback nor throws. *)
Definition silent {A : Type} (run : Promise.CallbackRun A) : Prop :=
  Promise.fired_during run = []
  ∧ Promise.raised run = None
  ∧ Promise.fired_after run = [].

(** ** Stub pages with chosen behaviours *)

Module Scenario.
Local Open Scope string_scope.

(** The stub page with other answers to the member query, to the contact
    lookups, and other uses of the callbacks. *)
Definition page
    (members : string → Outcome (list Id))
    (contact : string → Outcome string)
    (loader : Promise.CallbackRun unit)
    (picture : Promise.CallbackRun string)
    : WAPI.Stub nat string string string unit string :=
  {| WAPI.stub_sendMessage := WAPI.stub_sendMessage Demo.wapi;
     WAPI.stub_ReplyMessage := WAPI.stub_ReplyMessage Demo.wapi;
     WAPI.stub_sendSeen := WAPI.stub_sendSeen Demo.wapi;
     WAPI.stub_getAllContacts := WAPI.stub_getAllContacts Demo.wapi;
     WAPI.stub_getAllChats := WAPI.stub_getAllChats Demo.wapi;
     WAPI.stub_getAllChatsWithNewMsg :=
       WAPI.stub_getAllChatsWithNewMsg Demo.wapi;
     WAPI.stub_getAllGroups := WAPI.stub_getAllGroups Demo.wapi;
     WAPI.stub_getMessageById := fun m w => (Returned ("message " +:+ m), w);
     WAPI.stub_getGroupParticipantIDs := fun g w => (members g, w);
     WAPI.stub_getContact := fun c w => (contact c, S w);
     WAPI.stub_sendContact := WAPI.stub_sendContact Demo.wapi;
     WAPI.stub_loadAllEarlierMessages := fun _ w => (loader, w);
     WAPI.stub_loadEarlierMessages := fun _ w => (loader, w);
     WAPI.stub_areAllMessagesLoaded :=
       WAPI.stub_areAllMessagesLoaded Demo.wapi;
     WAPI.stub_getAllMessagesInChat :=
       WAPI.stub_getAllMessagesInChat Demo.wapi;
     WAPI.stub_getGroupMetadata := fun g w => (Returned ("group " +:+ g), w);
     WAPI.stub_getProfilePicFromId := fun _ w => (picture, w) |}.

Definition trio : list Id :=
  [{| _serialized := "a" |}; {| _serialized := "b" |};
   {| _serialized := "c" |}].

(** Contacts ["a"] and ["c"] are unknown, each in its own way. *)
Definition two_unknown (contactId : string) : Outcome string :=
  if String.eqb contactId "a" then Thrown "a is unknown"
  else if String.eqb contactId "c" then Thrown "c is unknown"
  else Returned ("contact " +:+ contactId).

Definition known (contactId : string) : Outcome string :=
  Returned ("contact " +:+ contactId).

Definition quiet {A : Type} : Promise.CallbackRun A :=
  {| Promise.fired_during := [];
     Promise.raised := None;
     Promise.fired_after := [] |}.

Definition broken {A : Type} : Promise.CallbackRun A :=
  {| Promise.fired_during := [];
     Promise.raised := Some "loader broke";
     Promise.fired_after := [] |}.

Definition pictures : Promise.CallbackRun string :=
  {| Promise.fired_during := [];
     Promise.raised := None;
     Promise.fired_after := ["first.png"; "second.png"] |}.

Definition twice : Promise.CallbackRun unit :=
  {| Promise.fired_during := [()];
     Promise.raised := None;
     Promise.fired_after := [()] |}.

End Scenario.

(** ** Properties of promises *)

Section PromiseFacts.
Context {A : Type}.
Implicit Types (p : Promise.t A) (v : A) (e : Failure).

Lemma resolve_settled v p :
  Promise.state p ≠ Pending → Promise.resolve v p = p.
Proof. unfold Promise.resolve. destruct (Promise.state p); congruence. Qed.

Lemma reject_settled e p :
  Promise.state p ≠ Pending → Promise.reject e p = p.
Proof. unfold Promise.reject. destruct (Promise.state p); congruence. Qed.

Lemma resolve_not_pending v p : Promise.state (Promise.resolve v p) ≠ Pending.
Proof.
  unfold Promise.resolve.
  by destruct (Promise.state p) eqn:Hp; simpl; rewrite ?Hp.
Qed.

Lemma resolve_fresh_state v :
  Promise.resolve v Promise.fresh
  = {| Promise.state := Fulfilled v; Promise.settlements := 1 |}.
Proof. reflexivity. Qed.

Lemma resolve_pending v p :
  Promise.state p = Pending → Promise.state (Promise.resolve v p) = Fulfilled v.
Proof. intros Hp. unfold Promise.resolve. by rewrite Hp. Qed.

(** A promise is settled at most once: the count is kept by [resolve] and
    [reject]. *)
Lemma counted_fresh : Promise.counted (@Promise.fresh A).
Proof. reflexivity. Qed.

Lemma counted_resolve v p :
  Promise.counted p → Promise.counted (Promise.resolve v p).
Proof.
  unfold Promise.counted, Promise.resolve.
  destruct (Promise.state p) eqn:Hp; simpl; rewrite ?Hp; lia.
Qed.

Lemma counted_reject e p :
  Promise.counted p → Promise.counted (Promise.reject e p).
Proof.
  unfold Promise.counted, Promise.reject.
  destruct (Promise.state p) eqn:Hp; simpl; rewrite ?Hp; lia.
Qed.

Section Callback.
Context {B : Type}.
Variable f : B → A.
Implicit Types (args : list B) (run : Promise.CallbackRun B).

(** The callback [(b) => resolve(f(b))]. *)
Local Abbreviation callback := (λ b : B, Promise.resolve (f b)).

Lemma fire_settled args p :
  Promise.state p ≠ Pending → Promise.fire callback args p = p.
Proof.
  intros Hp. unfold Promise.fire.
  induction args as [|b args IH]; simpl; [done|].
  by rewrite resolve_settled.
Qed.

Lemma fire_cons b args p :
  Promise.fire callback (b :: args) p = Promise.resolve (f b) p.
Proof.
  unfold Promise.fire. simpl. apply (fire_settled args), resolve_not_pending.
Qed.

Lemma counted_fire args p :
  Promise.counted p → Promise.counted (Promise.fire callback args p).
Proof.
  destruct args as [|b args]; [done|]. rewrite fire_cons. apply counted_resolve.
Qed.

Lemma counted_construct run :
  Promise.counted (Promise.construct callback run).
Proof.
  unfold Promise.construct. apply counted_fire.
  destruct (Promise.raised run);
    [apply counted_reject|]; apply counted_fire, counted_fresh.
Qed.

(** The first invocation of the callback settles the promise, unless a
    throw of the loader has done so before; no later invocation counts. *)
Lemma construct_settled_once run :
  0 < Promise.invocations run →
  Promise.settlements (Promise.construct callback run) = 1.
Proof.
  intros Hfired. pose proof (counted_construct run) as Hcount.
  unfold Promise.counted in Hcount.
  destruct (Promise.state (Promise.construct callback run)) eqn:Hstate;
    [exfalso|done..].
  revert Hstate. unfold Promise.construct, Promise.invocations in *.
  destruct (Promise.fired_during run) as [|b during].
  - destruct (Promise.fired_after run) as [|b later]; simpl in Hfired; [lia|].
    rewrite fire_cons. apply resolve_not_pending.
  - rewrite fire_cons, resolve_fresh_state.
    destruct (Promise.raised run);
      rewrite ?reject_settled, fire_settled; simpl; done.
Qed.

(** When the loader does not throw, the promise is fulfilled with what the
    first invocation of the callback passes. *)
Lemma construct_fulfilled run b rest :
  Promise.raised run = None →
  Promise.fired_during run ++ Promise.fired_after run = b :: rest →
  Promise.state (Promise.construct callback run) = Fulfilled (f b).
Proof.
  intros Hreturns Hfirst. unfold Promise.construct. rewrite Hreturns.
  destruct (Promise.fired_during run) as [|b' during]; simpl in Hfirst.
  - rewrite Hfirst, fire_cons. by apply resolve_pending.
  - injection Hfirst as -> _. rewrite (fire_cons b during).
    by rewrite fire_settled.
Qed.

(** What settles the promise, by what the loader does: a first invocation
    during its run, else its throw, else a first invocation later. *)
Lemma construct_cases run :
  Promise.construct callback run
  = match Promise.fired_during run, Promise.raised run,
          Promise.fired_after run with
    | b :: _, _, _ =>
        {| Promise.state := Fulfilled (f b); Promise.settlements := 1 |}
    | [], Some e, _ =>
        {| Promise.state := Rejected e; Promise.settlements := 1 |}
    | [], None, b :: _ =>
        {| Promise.state := Fulfilled (f b); Promise.settlements := 1 |}
    | [], None, [] => Promise.fresh
    end.
Proof.
  unfold Promise.construct.
  destruct (Promise.fired_during run) as [|b during].
  - change (Promise.fire callback [] Promise.fresh) with (@Promise.fresh A).
    destruct (Promise.raised run) as [e|].
    + by rewrite fire_settled.
    + destruct (Promise.fired_after run) as [|b later]; [done|].
      by rewrite fire_cons.
  - rewrite fire_cons, resolve_fresh_state.
    by destruct (Promise.raised run); rewrite ?reject_settled, fire_settled.
Qed.

End Callback.
End PromiseFacts.

Section PromiseAllFacts.
Context {A : Type}.
Implicit Types (vs : list A) (order rest : list nat).
Implicit Types (promises : list (PromiseState A)) (s : Promise.AllState A).

(** While promises fulfil in any order, each value lands in the slot of its
    promise, and the last fulfilment resolves [Promise.all] with the array. *)
Lemma all_fulfilled_fold vs rest : ∀ s,
  NoDup rest →
  (∀ i, i ∈ rest → i < length vs) →
  (∀ i, Promise.values s !! i
        = (λ v, if decide (i ∈ rest) then None else Some v) <$> vs !! i) →
  Promise.remainingElementsCount s = length rest →
  Promise.capability s
  = (if Nat.eqb (length rest) 0
     then Promise.resolve (Promise.values s) Promise.fresh
     else Promise.fresh) →
  Promise.state (Promise.capability
    (fold_left (Promise.all_react (Fulfilled <$> vs)) rest s))
  = Fulfilled (Some <$> vs).
Proof.
  induction rest as [|i r IH]; intros s Hnd Hlt Hval Hrem Hcap; simpl.
  - rewrite Hcap. simpl. f_equal. apply list_eq. intros i.
    rewrite Hval, list_lookup_fmap. by destruct (vs !! i).
  - apply NoDup_cons in Hnd as [Hi Hr].
    destruct (lookup_lt_is_Some_2 vs i) as [v Hv]; [apply Hlt; left|].
    assert (Promise.all_react (Fulfilled <$> vs) s i
            = Promise.all_settle i (Fulfilled v) s) as ->.
    { unfold Promise.all_react. by rewrite list_lookup_fmap, Hv. }
    apply IH; clear IH; simpl; [done| | | |].
    + intros j Hj. apply Hlt. by right.
    + intros j. destruct (decide (j = i)) as [->|Hne].
      * rewrite list_lookup_insert_eq.
        -- rewrite Hv. simpl. by rewrite decide_False.
        -- apply lookup_lt_is_Some. rewrite Hval, Hv. by eexists.
      * rewrite list_lookup_insert_ne, Hval by done.
        destruct (vs !! j); simpl; [|done].
        destruct (decide (j ∈ i :: r)) as [H1|H1],
                 (decide (j ∈ r)) as [H2|H2]; try done.
        -- by apply elem_of_cons in H1 as [?|?].
        -- exfalso. apply H1. by right.
    + by rewrite Hrem.
    + rewrite Hrem, Hcap. simpl. done.
Qed.

(** Whatever the order in which they fulfil, [Promise.all] assembles the
    values in the order of the promises. *)
Lemma all_fulfilled vs order :
  order ≡ₚ seq 0 (length vs) →
  Promise.all order (Fulfilled <$> vs) = Fulfilled (Some <$> vs).
Proof.
  intros Hp. unfold Promise.all. rewrite length_fmap.
  assert (Hin : ∀ i, i ∈ order ↔ i < length vs).
  { intros i. rewrite Hp, elem_of_seq. lia. }
  apply all_fulfilled_fold.
  - rewrite Hp. apply NoDup_seq.
  - intros i. apply Hin.
  - intros i. simpl. destruct (vs !! i) as [v|] eqn:Hv; simpl.
    + rewrite decide_True by (apply Hin; by eapply lookup_lt_Some).
      apply lookup_replicate_2. by eapply lookup_lt_Some.
    + apply lookup_replicate_None. by apply lookup_ge_None.
  - simpl. by rewrite Hp, length_seq.
  - simpl. rewrite Hp, length_seq. by destruct (length vs).
Qed.

(** Once rejected, the promise of [Promise.all] stays so. *)
Lemma all_react_rejected promises s i e :
  Promise.state (Promise.capability s) = Rejected e →
  Promise.state (Promise.capability (Promise.all_react promises s i))
  = Rejected e.
Proof.
  intros Hs. unfold Promise.all_react, Promise.all_settle.
  destruct (promises !! i) as [[|v|e']|]; simpl; try done.
  - destruct (Nat.eqb _ 0); [|done].
    rewrite resolve_settled; [done|congruence].
  - rewrite reject_settled; [done|congruence].
Qed.

Lemma all_rejected_fold promises rest : ∀ s,
  (∃ e, Promise.state (Promise.capability s) = Rejected e
        ∧ Rejected e ∈ promises)
  ∨ (Promise.state (Promise.capability s) = Pending
     ∧ length rest ≤ Promise.remainingElementsCount s
     ∧ ∃ j e, j ∈ rest ∧ promises !! j = Some (Rejected e)) →
  ∃ e, Rejected e ∈ promises
       ∧ Promise.state (Promise.capability
           (fold_left (Promise.all_react promises) rest s)) = Rejected e.
Proof.
  induction rest as [|i r IH]; intros s Hs; simpl.
  - destruct Hs as [(e & He & Hin)|(_ & _ & j & e & Hj & _)]; [by eauto|].
    by apply elem_of_nil in Hj.
  - apply IH. clear IH.
    destruct Hs as [(e & He & Hin)|(Hpen & Hlen & j & e & Hj & He)].
    { left. exists e. split; [by apply all_react_rejected|done]. }
    simpl in Hlen. unfold Promise.all_react, Promise.all_settle.
    destruct (promises !! i) as [[|v|e']|] eqn:Hi; simpl.
    + right. split_and!; [done|lia|]. exists j, e. split; [|done].
      apply elem_of_cons in Hj as [->|Hj]; [congruence|done].
    + right.
      assert (j ∈ r) as Hjr.
      { apply elem_of_cons in Hj as [->|Hj]; [congruence|done]. }
      assert (0 < length r)
        by (destruct r; [by apply elem_of_nil in Hjr|simpl; lia]).
      destruct (Nat.eqb_spec (pred (Promise.remainingElementsCount s)) 0);
        [lia|].
      split_and!; [done|lia|]. by exists j, e.
    + left. exists e'. split; [|by eapply list_elem_of_lookup_2].
      unfold Promise.reject. by rewrite Hpen.
    + right. split_and!; [done|lia|]. exists j, e. split; [|done].
      apply elem_of_cons in Hj as [->|Hj]; [congruence|done].
Qed.

(** If one of the promises rejects, [Promise.all] rejects, with the failure
    of one of them, whatever the order of settlement. *)
Lemma all_rejected promises order j e :
  order ≡ₚ seq 0 (length promises) →
  promises !! j = Some (Rejected e) →
  ∃ e', Rejected e' ∈ promises ∧ Promise.all order promises = Rejected e'.
Proof.
  intros Hp Hj. unfold Promise.all. apply all_rejected_fold. right.
  assert (j < length promises) as Hlt by (by eapply lookup_lt_Some).
  simpl. destruct (Nat.eqb_spec (length promises) 0); [lia|].
  split_and!; [done|by rewrite Hp, length_seq|].
  exists j, e. split; [|done]. rewrite Hp, elem_of_seq. lia.
Qed.

(** With no promise to wait for, [Promise.all] is fulfilled at once with
    the empty array, whatever the environment does. *)
Lemma all_nil order : Promise.all order (@nil (PromiseState A)) = Fulfilled [].
Proof.
  unfold Promise.all. simpl.
  assert (∀ s, fold_left (Promise.all_react (@nil (PromiseState A))) order s
               = s) as ->; [|done].
  induction order as [|i order IH]; intros s; simpl; [done|apply IH].
Qed.

End PromiseAllFacts.

(** ** Properties of the facade *)

Create HintDb facade discriminated.

Section FacadeFacts.
Context {World Contact Message Metadata Any Image Page Effect : Type}.
Variable wapi : WAPI.Stub World Contact Message Metadata Any Image.
Variable ExposedFn_OnMessage : string.
Variable completion_order : nat → list nat.

Local Abbreviation Node := (Whatsapp.Node World Message Page Effect).
Local Abbreviation Async := (@Whatsapp.Async World Message Page Effect).
Implicit Types (n : Node) (w : World).

(** *** Frame: what an [async] method leaves alone *)

Lemma same_session_refl n : same_session n n.
Proof.
  split; [done|]. exists []. by rewrite app_nil_r.
Qed.

Lemma same_session_trans n1 n2 n3 :
  same_session n1 n2 → same_session n2 n3 → same_session n1 n3.
Proof.
  intros [Ht1 (ops1 & Hi1 & Hf1)] [Ht2 (ops2 & Hi2 & Hf2)].
  split; [congruence|]. exists (ops1 ++ ops2).
  split; [by rewrite Hi2, Hi1, app_assoc|].
  apply Forall_app. split; [done|]. by rewrite <- Ht1.
Qed.

Lemma same_session_log op c n :
  op ≠ Op_close → same_session n (Whatsapp.log op c n).
Proof.
  intros Hop. split; [done|]. eexists. split; [done|].
  by apply Forall_singleton.
Qed.

Lemma keeps_ret {A : Type} (v : A) : keeps_session (Whatsapp.ret v : Async A).
Proof. intros n. apply same_session_refl. Qed.

Lemma keeps_bind {A B : Type} (m : Async A) (k : A → Async B) :
  keeps_session m → (∀ v, keeps_session (k v)) →
  keeps_session (Whatsapp.bind m k : Async _).
Proof.
  intros Hm Hk n. unfold Whatsapp.bind. specialize (Hm n).
  destruct (m n) as [[|v|e] n1]; simpl in *; [done| |done].
  eapply same_session_trans; [exact Hm|apply Hk].
Qed.

Lemma keeps_evaluate {A : Type} (f : WAPI.Remote World A) :
  keeps_session (Whatsapp.evaluate f : Async _).
Proof.
  intros n. unfold Whatsapp.evaluate. destruct (f _) as [r c]. simpl.
  by apply same_session_log.
Qed.

Lemma keeps_evaluateHandle {A : Type} (f : WAPI.Remote World (Promise.t A)) :
  keeps_session (Whatsapp.evaluateHandle f : Async _).
Proof.
  intros n. unfold Whatsapp.evaluateHandle. destruct (f _) as [r c]. simpl.
  by apply same_session_log.
Qed.

Lemma keeps_map_async {A B : Type} (f : A → Async B) (xs : list A) :
  (∀ x, keeps_session (f x)) →
  keeps_session (Whatsapp.started (Whatsapp.map_async f xs) : Async _).
Proof.
  intros Hf. unfold keeps_session, Whatsapp.started.
  induction xs as [|x xs IH]; intros n; simpl.
  - apply same_session_refl.
  - specialize (Hf x n). destruct (f x n) as [p n1]. simpl in Hf.
    specialize (IH n1). destruct (Whatsapp.map_async f xs n1) as [ps n2].
    simpl in *. by eapply same_session_trans.
Qed.

Lemma keeps_Promise_all {A : Type} (actions : list (PromiseState A)) :
  keeps_session (Whatsapp.Promise_all completion_order actions : Async _).
Proof. intros n. apply same_session_refl. Qed.

Hint Resolve keeps_ret keeps_evaluate keeps_evaluateHandle
  keeps_Promise_all : facade.

Ltac keeps :=
  repeat first
    [ apply keeps_bind; [|intros ?]
    | apply keeps_map_async; intros ?
    | solve [auto with facade] ].

Lemma keeps_getContact contactId :
  keeps_session (Whatsapp.getContact wapi contactId : Async _).
Proof. unfold Whatsapp.getContact. keeps. Qed.

Lemma keeps_getGroupMembersId groupId :
  keeps_session (Whatsapp.getGroupMembersId wapi groupId : Async _).
Proof. unfold Whatsapp.getGroupMembersId. keeps. Qed.

Lemma keeps_getGroupMembers groupId :
  keeps_session
    (Whatsapp.getGroupMembers wapi completion_order groupId : Async _).
Proof.
  unfold Whatsapp.getGroupMembers.
  apply keeps_bind; [apply keeps_getGroupMembersId|intros ids].
  apply keeps_bind; [|intros ?; keeps].
  apply keeps_map_async. intros ?. apply keeps_getContact.
Qed.

Lemma keeps_at {A : Type} (m : Async A) n :
  keeps_session m → same_session n (snd (m n)).
Proof. intros Hm. apply Hm. Qed.

Lemma after_same_session call n :
  same_session n
    (Whatsapp.after wapi ExposedFn_OnMessage completion_order call n).
Proof.
  destruct call as [fn| | | | |b|b| | | | | | | | | |]; simpl;
    [|apply keeps_at..].
  - split; [done|]. eexists. split; [done|]. by apply Forall_singleton.
  - unfold Whatsapp.sendText. keeps.
  - unfold Whatsapp.replyMessage. keeps.
  - unfold Whatsapp.sendContact. keeps.
  - unfold Whatsapp.getAllContacts. keeps.
  - unfold Whatsapp.getAllChats. destruct b; keeps.
  - unfold Whatsapp.getAllGroups. destruct b; keeps.
  - apply keeps_getGroupMembersId.
  - apply keeps_getGroupMembers.
  - unfold Whatsapp.getGroupMetadata. keeps.
  - unfold Whatsapp.getProfilePicFromId. keeps.
  - apply keeps_getContact.
  - unfold Whatsapp.getMessageById. keeps.
  - unfold Whatsapp.areAllMessagesLoaded. keeps.
  - unfold Whatsapp.loadEarlierMessagesInChat. keeps.
  - unfold Whatsapp.loadAllEarlierMessagesInChat. keeps.
  - unfold Whatsapp.getAllMessagesInChat. keeps.
Qed.

Lemma after_all_same_session program : ∀ n,
  same_session n
    (Whatsapp.after_all wapi ExposedFn_OnMessage completion_order program n).
Proof.
  induction program as [|call program IH]; intros n; simpl.
  - apply same_session_refl.
  - eapply same_session_trans; [apply after_same_session|apply IH].
Qed.

(** *** Forwarding: what one evaluation does *)

(** [return await m] settles as [m] does. *)
Lemma await_return {A : Type} (m : Async A) n :
  Whatsapp.bind m Whatsapp.ret n = m n.
Proof. unfold Whatsapp.bind, Whatsapp.ret. by destruct (m n) as [[|v|e] n']. Qed.

Lemma evaluate_invoke {A : Type} call (f : World → Outcome A * World) n :
  Whatsapp.evaluate (WAPI.invoke call f) n
  = (settle (f (WAPI.world (Whatsapp.remote n))).1,
     Whatsapp.log Op_evaluate
       {| WAPI.world := (f (WAPI.world (Whatsapp.remote n))).2;
          WAPI.calls := WAPI.calls (Whatsapp.remote n) ++ [call] |} n).
Proof. unfold Whatsapp.evaluate, WAPI.invoke. by destruct (f _). Qed.

Lemma getContact_run contactId n :
  Whatsapp.getContact wapi contactId n
  = (settle (WAPI.stub_getContact wapi contactId
               (WAPI.world (Whatsapp.remote n))).1,
     Whatsapp.log Op_evaluate
       {| WAPI.world := (WAPI.stub_getContact wapi contactId
                           (WAPI.world (Whatsapp.remote n))).2;
          WAPI.calls := WAPI.calls (Whatsapp.remote n)
                        ++ [Call_getContact contactId] |} n).
Proof.
  unfold Whatsapp.getContact, WAPI.getContact.
  by rewrite await_return, evaluate_invoke.
Qed.

Lemma getAllChats_run b n :
  Whatsapp.getAllChats wapi b n
  = (settle (enumeration wapi b (WAPI.world (Whatsapp.remote n))).1,
     Whatsapp.log Op_evaluate
       {| WAPI.world := (enumeration wapi b (WAPI.world (Whatsapp.remote n))).2;
          WAPI.calls := WAPI.calls (Whatsapp.remote n)
                        ++ [enumeration_call b] |} n).
Proof.
  unfold Whatsapp.getAllChats, enumeration, enumeration_call.
  destruct b; unfold WAPI.getAllChatsWithNewMsg, WAPI.getAllChats;
    by rewrite await_return, evaluate_invoke.
Qed.

Lemma getAllGroups_run b n :
  Whatsapp.getAllGroups wapi b n
  = (PromiseState_map (List.filter (λ chat, isGroup chat))
       (settle (enumeration wapi b (WAPI.world (Whatsapp.remote n))).1),
     Whatsapp.log Op_evaluate
       {| WAPI.world := (enumeration wapi b (WAPI.world (Whatsapp.remote n))).2;
          WAPI.calls := WAPI.calls (Whatsapp.remote n)
                        ++ [enumeration_call b] |} n).
Proof.
  unfold Whatsapp.getAllGroups, enumeration, enumeration_call.
  destruct b; unfold WAPI.getAllChatsWithNewMsg, WAPI.getAllChats;
    unfold Whatsapp.bind; rewrite evaluate_invoke.
  - by destruct (WAPI.stub_getAllChatsWithNewMsg wapi _) as [[chats|e] w'].
  - by destruct (WAPI.stub_getAllChats wapi _) as [[chats|e] w'].
Qed.

(** *** The lookups of [getGroupMembers] *)

Lemma lookups_length keys : ∀ w, length (lookups wapi keys w).1 = length keys.
Proof.
  induction keys as [|key keys IH]; intros w; simpl; [done|].
  destruct (WAPI.stub_getContact wapi key w) as [r w1].
  specialize (IH w1). destruct (lookups wapi keys w1) as [rs w2]. simpl in *.
  by rewrite IH.
Qed.

(** Starting one lookup per identifier issues the lookups in the order of
    the identifiers, each under the serialized form of its identifier. *)
Lemma map_async_getContact ids : ∀ n,
  Whatsapp.map_async
    (λ memberId, Whatsapp.getContact wapi (_serialized memberId)) ids n
  = (settle <$> (lookups wapi (_serialized <$> ids)
                   (WAPI.world (Whatsapp.remote n))).1,
     {| Whatsapp.this := Whatsapp.this n;
        Whatsapp.remote :=
          {| WAPI.world := (lookups wapi (_serialized <$> ids)
                              (WAPI.world (Whatsapp.remote n))).2;
             WAPI.calls := WAPI.calls (Whatsapp.remote n)
                           ++ ((λ memberId, Call_getContact (_serialized memberId))
                                 <$> ids) |};
        Whatsapp.issued :=
          Whatsapp.issued n
          ++ replicate (length ids) (Whatsapp.page (Whatsapp.this n), Op_evaluate);
        Whatsapp.exposed := Whatsapp.exposed n |}).
Proof.
  induction ids as [|id ids IH]; intros [self [w0 calls0] ops0 fns0]; simpl.
  - by rewrite !app_nil_r.
  - rewrite getContact_run. simpl.
    destruct (WAPI.stub_getContact wapi (_serialized id) w0) as [r w1]. simpl.
    rewrite IH. simpl.
    change (list_fmap Id string _serialized ids) with (_serialized <$> ids).
    destruct (lookups wapi (_serialized <$> ids) w1) as [rs w2]. simpl.
    by rewrite <- !app_assoc.
Qed.

(** [getGroupMembers], once the member identifiers are known. *)
Lemma getGroupMembers_run groupId n ids w1 :
  WAPI.stub_getGroupParticipantIDs wapi groupId
    (WAPI.world (Whatsapp.remote n)) = (Returned ids, w1) →
  Whatsapp.getGroupMembers wapi completion_order groupId n
  = (Promise.all (completion_order (length ids))
       (settle <$> (lookups wapi (_serialized <$> ids) w1).1),
     {| Whatsapp.this := Whatsapp.this n;
        Whatsapp.remote :=
          {| WAPI.world := (lookups wapi (_serialized <$> ids) w1).2;
             WAPI.calls :=
               WAPI.calls (Whatsapp.remote n)
               ++ Call_getGroupParticipantIDs groupId
                  :: ((λ memberId, Call_getContact (_serialized memberId))
                        <$> ids) |};
        Whatsapp.issued :=
          Whatsapp.issued n
          ++ replicate (S (length ids))
               (Whatsapp.page (Whatsapp.this n), Op_evaluate);
        Whatsapp.exposed := Whatsapp.exposed n |}).
Proof.
  intros Hids. unfold Whatsapp.getGroupMembers.
  unfold Whatsapp.bind at 1.
  unfold Whatsapp.getGroupMembersId, WAPI.getGroupParticipantIDs.
  rewrite await_return, evaluate_invoke, Hids. simpl.
  unfold Whatsapp.bind at 1. unfold Whatsapp.started.
  rewrite map_async_getContact. simpl.
  rewrite await_return. unfold Whatsapp.Promise_all.
  rewrite length_fmap, lookups_length, length_fmap.
  by rewrite <- !app_assoc.
Qed.

Lemma invoked_log n op w calls' :
  invoked n
    (Whatsapp.log op
       {| WAPI.world := w;
          WAPI.calls := WAPI.calls (Whatsapp.remote n) ++ calls' |} n)
  = calls'.
Proof. unfold invoked. simpl. by rewrite drop_app_length. Qed.

(** *** The claims of the specification *)

(** C1. [sendText(to, content)] first invokes [WAPI.sendSeen] with [to] and
    right after it [WAPI.sendMessage] with [to] and [content], both as they
    were passed in, the second on the state of the page the first has left;
    nothing else is invoked.  (The second invocation is reached unless
    marking the chat as seen throws, in which case the call rejects.) *)
Theorem sendText_seen_before_message to content n :
  invoked n (Whatsapp.sendText wapi to content n).2
  = Call_sendSeen to
    :: (if (WAPI.stub_sendSeen wapi to (WAPI.world (Whatsapp.remote n))).1
        is Returned _
        then [Call_sendMessage to content]
        else [])
  ∧ match WAPI.stub_sendSeen wapi to (WAPI.world (Whatsapp.remote n)) with
    | (Returned _, w1) =>
        (Whatsapp.sendText wapi to content n).1
        = settle (WAPI.stub_sendMessage wapi to content w1).1
        ∧ WAPI.world (Whatsapp.remote (Whatsapp.sendText wapi to content n).2)
          = (WAPI.stub_sendMessage wapi to content w1).2
    | (Thrown e, w1) =>
        (Whatsapp.sendText wapi to content n).1 = Rejected e
        ∧ WAPI.world (Whatsapp.remote (Whatsapp.sendText wapi to content n).2)
          = w1
    end.
Proof.
  unfold Whatsapp.sendText. rewrite await_return.
  unfold Whatsapp.evaluate, WAPI.bind, WAPI.sendSeen, WAPI.sendMessage,
    WAPI.invoke. simpl.
  destruct (WAPI.stub_sendSeen wapi to _) as [[[]|e] w1]; simpl.
  - destruct (WAPI.stub_sendMessage wapi to content w1) as [r w2]. simpl.
    rewrite <- app_assoc. by rewrite invoked_log.
  - by rewrite invoked_log.
Qed.

Lemma filter_isGroup_sublist (chats : list Chat) :
  sublist (List.filter (λ chat, isGroup chat) chats) chats.
Proof.
  induction chats as [|chat chats IH]; simpl; [constructor|].
  destruct (isGroup chat); by constructor.
Qed.

(** C2. Whatever collection of chats the enumeration in the page returns,
    [getAllGroups] returns the entries whose [isGroup] flag is set, all of
    them and only them, in their original order. *)
Theorem getAllGroups_keeps_groups_in_order b n chats w1 :
  enumeration wapi b (WAPI.world (Whatsapp.remote n)) = (Returned chats, w1) →
  ∃ groups,
    (Whatsapp.getAllGroups wapi b n).1 = Fulfilled groups
    ∧ groups = List.filter (λ chat, isGroup chat) chats
    ∧ sublist groups chats
    ∧ ∀ chat, chat ∈ groups ↔ chat ∈ chats ∧ isGroup chat = true.
Proof.
  intros Henum. exists (List.filter (λ chat, isGroup chat) chats).
  rewrite getAllGroups_run, Henum. simpl.
  split_and!; [done|done|apply filter_isGroup_sublist|].
  intros chat. rewrite !list_elem_of_In, filter_In.
  by destruct (isGroup chat).
Qed.

(** C3. [getGroupMembers(groupId)] asks the page for the member identifiers
    first, then issues one contact lookup per identifier, in the order of
    the identifiers and under their [_serialized] strings; when the lookups
    succeed it returns their results in the order of the identifiers, in
    whatever order the lookups complete. *)
Theorem getGroupMembers_in_order_of_ids groupId n ids w1 :
  WAPI.stub_getGroupParticipantIDs wapi groupId
    (WAPI.world (Whatsapp.remote n)) = (Returned ids, w1) →
  completion_order (length ids) ≡ₚ seq 0 (length ids) →
  invoked n (Whatsapp.getGroupMembers wapi completion_order groupId n).2
  = Call_getGroupParticipantIDs groupId
    :: ((λ memberId, Call_getContact (_serialized memberId)) <$> ids)
  ∧ ∀ contacts,
      (lookups wapi (_serialized <$> ids) w1).1 = Returned <$> contacts →
      (Whatsapp.getGroupMembers wapi completion_order groupId n).1
      = Fulfilled (Some <$> contacts).
Proof.
  intros Hids Hperm. rewrite (getGroupMembers_run _ _ _ _ Hids). simpl.
  split.
  - unfold invoked. simpl. by rewrite drop_app_length.
  - intros contacts Hcontacts. rewrite Hcontacts, <- list_fmap_compose.
    assert (length ids = length contacts) as Hlen.
    { rewrite <- (length_fmap _serialized ids).
      rewrite <- (lookups_length (_serialized <$> ids) w1), Hcontacts.
      apply length_fmap. }
    apply all_fulfilled. by rewrite <- Hlen.
Qed.

(** C4. [getAllChats(true)] invokes [WAPI.getAllChatsWithNewMsg] and nothing
    else, [getAllChats(false)] invokes [WAPI.getAllChats] and nothing else;
    either way the call settles as the query does, with its full result. *)
Theorem getAllChats_selects_the_query n :
  (invoked n (Whatsapp.getAllChats wapi true n).2 = [Call_getAllChatsWithNewMsg]
   ∧ (Whatsapp.getAllChats wapi true n).1
     = settle (WAPI.stub_getAllChatsWithNewMsg wapi
                 (WAPI.world (Whatsapp.remote n))).1)
  ∧ (invoked n (Whatsapp.getAllChats wapi false n).2 = [Call_getAllChats]
     ∧ (Whatsapp.getAllChats wapi false n).1
       = settle (WAPI.stub_getAllChats wapi
                   (WAPI.world (Whatsapp.remote n))).1).
Proof.
  rewrite !getAllChats_run. simpl. by rewrite !invoked_log.
Qed.

(** C5. If any one of the contact lookups issued by [getGroupMembers] fails,
    the whole call fails, with the failure of one of the lookups: there is
    no partial result. *)
Theorem getGroupMembers_fails_as_a_whole groupId n ids w1 e :
  WAPI.stub_getGroupParticipantIDs wapi groupId
    (WAPI.world (Whatsapp.remote n)) = (Returned ids, w1) →
  completion_order (length ids) ≡ₚ seq 0 (length ids) →
  Thrown e ∈ (lookups wapi (_serialized <$> ids) w1).1 →
  ∃ e', Thrown e' ∈ (lookups wapi (_serialized <$> ids) w1).1
        ∧ (Whatsapp.getGroupMembers wapi completion_order groupId n).1
          = Rejected e'.
Proof.
  intros Hids Hperm He. rewrite (getGroupMembers_run _ _ _ _ Hids). simpl.
  apply list_elem_of_lookup_1 in He as [j Hj].
  destruct (all_rejected
              (settle <$> (lookups wapi (_serialized <$> ids) w1).1)
              (completion_order (length ids)) j e) as (e' & Hin & Hall).
  - by rewrite length_fmap, lookups_length, length_fmap.
  - by rewrite list_lookup_fmap, Hj.
  - exists e'. split; [|done].
    apply list_elem_of_fmap in Hin as ([v|e''] & Heq & Hin); simpl in Heq;
      [done|]. by injection Heq as ->.
Qed.

(** C6, as amended.  [loadEarlierMessagesInChat(chatId)] hands [chatId] as
    it is to [WAPI.loadEarlierMessages] and invokes nothing else.  The call
    is settled by the promise wrapping the callback of the loader, and by
    it alone: it stays pending while the loader has neither invoked the
    callback nor thrown; it is rejected with what the loader throws when
    the loader throws before any invocation; otherwise the first invocation
    fulfils it.  The promise is settled once at most.  In particular, when
    the loader invokes its callback exactly once and has not thrown before,
    the promise is settled exactly once and the call is fulfilled. *)
Theorem loadEarlierMessagesInChat_settles_with_the_callback chatId n run w1 :
  WAPI.stub_loadEarlierMessages wapi chatId
    (WAPI.world (Whatsapp.remote n)) = (run, w1) →
  invoked n (Whatsapp.loadEarlierMessagesInChat wapi chatId n).2
  = [Call_loadEarlierMessages chatId]
  ∧ (Whatsapp.loadEarlierMessagesInChat wapi chatId n).1
    = match Promise.fired_during run, Promise.raised run,
            Promise.fired_after run with
      | [], None, [] => Pending
      | [], Some e, _ => Rejected e
      | _, _, _ => Fulfilled (Handle ())
      end
  ∧ ∃ p,
      (Whatsapp.loadEarlierMessagesInChat_pageFunction wapi chatId
         (Whatsapp.remote n)).1 = Returned p
      ∧ Promise.settlements p
        = match Promise.fired_during run, Promise.raised run,
                Promise.fired_after run with
          | [], None, [] => 0
          | _, _, _ => 1
          end
      ∧ (Promise.invocations run = 1 →
         (Promise.fired_during run = [] → Promise.raised run = None) →
         Promise.settlements p = 1
         ∧ (Whatsapp.loadEarlierMessagesInChat wapi chatId n).1
           = Fulfilled (Handle ())).
Proof.
  intros Hrun. unfold Whatsapp.loadEarlierMessagesInChat.
  rewrite await_return. unfold Whatsapp.evaluateHandle.
  unfold Whatsapp.loadEarlierMessagesInChat_pageFunction, WAPI.new_Promise,
    WAPI.bind, WAPI.loadEarlierMessages, WAPI.invoke_callback, WAPI.ret.
  rewrite Hrun. simpl. split; [apply invoked_log|].
  rewrite (construct_cases (λ _ : (), ())). unfold Promise.invocations.
  destruct run as [[|[] during] [e|] [|[] later]]; simpl;
    (split; [done|]); eexists; (split; [done|]); (split; [done|]);
    intros Hone Hfirst; try done; try lia.
  by specialize (Hfirst eq_refl).
Qed.

(** C7. If the [WAPI] function behind a keyed read ([getContact],
    [getMessageById], [getGroupMetadata], [getGroupMembersId]) fails, the
    method of the facade rejects with that very failure. *)
Theorem keyed_read_failure_is_forwarded m key n e :
  remote_failure wapi m key (WAPI.world (Whatsapp.remote n)) = Some e →
  facade_failure wapi m key n = Some e.
Proof.
  destruct m; simpl;
    unfold Whatsapp.getContact, Whatsapp.getMessageById,
      Whatsapp.getGroupMetadata, Whatsapp.getGroupMembersId,
      WAPI.getContact, WAPI.getMessageById, WAPI.getGroupMetadata,
      WAPI.getGroupParticipantIDs;
    rewrite await_return, evaluate_invoke; simpl;
    match goal with
    | |- thrown ?r = _ → _ => by destruct r as [v|e']
    end.
Qed.

(** C8. No public method reassigns the [page] field or closes the page:
    after a call the field is what it was, and after any sequence of calls
    on a new object it still is the handle passed to the constructor, every
    operation issued meanwhile went to that handle, and none closed it. *)
Theorem page_handle_is_read_only :
  (∀ call n,
     Whatsapp.page
       (Whatsapp.this
          (Whatsapp.after wapi ExposedFn_OnMessage completion_order call n))
     = Whatsapp.page (Whatsapp.this n))
  ∧ (∀ (p : Page) c (program : list (@Whatsapp.MethodCall Message Effect)),
       Whatsapp.page
         (Whatsapp.this
            (Whatsapp.after_all wapi ExposedFn_OnMessage completion_order
               program (Whatsapp.boot p c))) = p
       ∧ Forall (λ o, o.1 = p ∧ o.2 ≠ Op_close)
           (Whatsapp.issued
              (Whatsapp.after_all wapi ExposedFn_OnMessage completion_order
                 program (Whatsapp.boot p c)))).
Proof.
  split.
  - intros call n. by destruct (after_same_session call n) as [-> _].
  - intros p c program.
    destruct (after_all_same_session program (Whatsapp.boot p c))
      as [-> (ops & -> & Hops)].
    by split.
Qed.

(** C9. [getAllGroups(b)] yields what [getAllChats(b)] yields, filtered down
    to the entries whose [isGroup] flag is set: the two leave the page and
    the session in the same state, having invoked the same single
    enumeration ([WAPI.getAllChatsWithNewMsg] when [b] is set,
    [WAPI.getAllChats] otherwise), which is never [WAPI.getAllGroups]. *)
Theorem getAllGroups_filters_getAllChats b n :
  (Whatsapp.getAllGroups wapi b n).1
  = PromiseState_map (List.filter (λ chat, isGroup chat))
      (Whatsapp.getAllChats wapi b n).1
  ∧ (Whatsapp.getAllGroups wapi b n).2 = (Whatsapp.getAllChats wapi b n).2
  ∧ invoked n (Whatsapp.getAllGroups wapi b n).2
    = [if b then Call_getAllChatsWithNewMsg else Call_getAllChats]
  ∧ Call_getAllGroups ∉ invoked n (Whatsapp.getAllGroups wapi b n).2.
Proof.
  rewrite getAllGroups_run, getAllChats_run. simpl. rewrite invoked_log.
  split_and!; [done|done|by destruct b|].
  rewrite list_elem_of_singleton. by destruct b.
Qed.

(** C10. If the page reports no member for the group, [getGroupMembers]
    returns an empty collection and issues no contact lookup. *)
Theorem getGroupMembers_of_empty_group groupId n w1 :
  WAPI.stub_getGroupParticipantIDs wapi groupId
    (WAPI.world (Whatsapp.remote n)) = (Returned [], w1) →
  (Whatsapp.getGroupMembers wapi completion_order groupId n).1 = Fulfilled []
  ∧ invoked n (Whatsapp.getGroupMembers wapi completion_order groupId n).2
    = [Call_getGroupParticipantIDs groupId]
  ∧ ∀ contactId,
      Call_getContact contactId
      ∉ invoked n (Whatsapp.getGroupMembers wapi completion_order groupId n).2.
Proof.
  intros Hids. rewrite (getGroupMembers_run _ _ _ _ Hids). simpl.
  unfold invoked. simpl. rewrite drop_app_length.
  split_and!; [apply all_nil|done|].
  intros contactId. by rewrite list_elem_of_singleton.
Qed.

End FacadeFacts.

(** ** The facade against the stub page *)

Lemma last_first_fair k : Demo.last_first k ≡ₚ seq 0 k.
Proof. symmetry. apply Permutation_rev. Defined.

Example sendText_on_the_stub :
  Whatsapp.sendText Demo.wapi "alice" "hello" Demo.node
  = (Fulfilled (),
     Whatsapp.log Op_evaluate
       {| WAPI.world := 1;
          WAPI.calls := [Call_sendSeen "alice";
                         Call_sendMessage "alice" "hello"] |}
       Demo.node).
Proof. reflexivity. Qed.

Example getAllChats_with_new_messages_only :
  (Whatsapp.getAllChats Demo.wapi true Demo.node).1
  = Fulfilled [Demo.chat "work" true].
Proof. reflexivity. Qed.

(** One lookup of three fails; with the lookups completing first to last
    the call fails as it does when they complete last to first. *)
Example getGroupMembers_first_to_last :
  (Whatsapp.getGroupMembers Demo.wapi (seq 0) "g2" Demo.node).1
  = Rejected "no such contact"%string.
Proof. reflexivity. Qed.

(** A loader that never invokes its callback leaves the call pending. *)
Example loadEarlierMessagesInChat_hangs :
  (Whatsapp.loadEarlierMessagesInChat
     (Demo.with_loader {| Promise.fired_during := [];
                          Promise.raised := None;
                          Promise.fired_after := [] |})
     "chat" Demo.node).1 = Pending.
Proof. reflexivity. Qed.

(** A loader that invokes its callback twice settles the promise once. *)
Example loadEarlierMessagesInChat_twice :
  (Whatsapp.loadEarlierMessagesInChat_pageFunction
     (Demo.with_loader {| Promise.fired_during := [()];
                          Promise.raised := None;
                          Promise.fired_after := [()] |})
     "chat" (Whatsapp.remote Demo.node)).1
  = Returned {| Promise.state := Fulfilled (); Promise.settlements := 1 |}.
Proof. reflexivity. Qed.

(** A loader that throws before its callback runs: the throw settles the
    promise, and the later invocation of the callback changes nothing. *)
Example loadEarlierMessagesInChat_throws_first :
  (Whatsapp.loadEarlierMessagesInChat
     (Demo.with_loader {| Promise.fired_during := [];
                          Promise.raised := Some "boom"%string;
                          Promise.fired_after := [()] |})
     "chat" Demo.node).1 = Rejected "boom"%string
  ∧ (Whatsapp.loadEarlierMessagesInChat_pageFunction
       (Demo.with_loader {| Promise.fired_during := [];
                            Promise.raised := Some "boom"%string;
                            Promise.fired_after := [()] |})
       "chat" (Whatsapp.remote Demo.node)).1
    = Returned {| Promise.state := Rejected "boom"%string;
                  Promise.settlements := 1 |}.
Proof. split; reflexivity. Qed.

(** The stub collection of the specification: of a group, a direct chat and
    a group, [getAllGroups(false)] returns the two groups, in order. *)
Lemma getAllGroups_keeps_groups_in_order_witness :
  enumeration Demo.wapi false (WAPI.world (Whatsapp.remote Demo.node))
  = (Returned Demo.chats, 0)
  ∧ ∃ groups,
      (Whatsapp.getAllGroups Demo.wapi false Demo.node).1 = Fulfilled groups
      ∧ groups = [Demo.chat "family" true; Demo.chat "work" true]
      ∧ sublist groups Demo.chats
      ∧ ∀ chat, chat ∈ groups ↔ chat ∈ Demo.chats ∧ isGroup chat = true.
Proof.
  split; [reflexivity|].
  exact (getAllGroups_keeps_groups_in_order Demo.wapi false Demo.node
           Demo.chats 0 eq_refl).
Defined.

(** The stub of the specification: members ["a"] and ["b"], the lookup for
    ["b"] completing first. *)
Lemma getGroupMembers_in_order_of_ids_witness :
  WAPI.stub_getGroupParticipantIDs Demo.wapi "g1"
    (WAPI.world (Whatsapp.remote Demo.node))
  = (Returned [{| _serialized := "a" |}; {| _serialized := "b" |}], 0)
  ∧ Demo.last_first 2 = [1; 0]
  ∧ Demo.last_first 2 ≡ₚ seq 0 2
  ∧ invoked Demo.node
      (Whatsapp.getGroupMembers Demo.wapi Demo.last_first "g1" Demo.node).2
    = [Call_getGroupParticipantIDs "g1"; Call_getContact "a";
       Call_getContact "b"]
  ∧ (Whatsapp.getGroupMembers Demo.wapi Demo.last_first "g1" Demo.node).1
    = Fulfilled [Some "contact a"; Some "contact b"]%string.
Proof.
  split; [reflexivity|]. split; [reflexivity|].
  split; [apply last_first_fair|].
  destruct (getGroupMembers_in_order_of_ids Demo.wapi Demo.last_first
              "g1" Demo.node
              [{| _serialized := "a" |}; {| _serialized := "b" |}] 0
              eq_refl (last_first_fair 2)) as [Hcalls Hresult].
  split; [exact Hcalls|].
  exact (Hresult ["contact a"; "contact b"]%string eq_refl).
Defined.

(** One failing lookup among three. *)
Lemma getGroupMembers_fails_as_a_whole_witness :
  WAPI.stub_getGroupParticipantIDs Demo.wapi "g2"
    (WAPI.world (Whatsapp.remote Demo.node))
  = (Returned (Demo.members "g2"), 0)
  ∧ Demo.last_first 3 ≡ₚ seq 0 3
  ∧ Thrown "no such contact"
    ∈ (lookups Demo.wapi (_serialized <$> Demo.members "g2") 0).1
  ∧ ∃ e', Thrown e'
          ∈ (lookups Demo.wapi (_serialized <$> Demo.members "g2") 0).1
          ∧ (Whatsapp.getGroupMembers Demo.wapi Demo.last_first "g2"
               Demo.node).1 = Rejected e'.
Proof.
  assert (Thrown "no such contact"
          ∈ (lookups Demo.wapi (_serialized <$> Demo.members "g2") 0).1)
    as Hfails.
  { vm_compute. apply list_elem_of_further, list_elem_of_here. }
  split; [reflexivity|]. split; [apply last_first_fair|].
  split; [exact Hfails|].
  exact (getGroupMembers_fails_as_a_whole Demo.wapi Demo.last_first "g2"
           Demo.node (Demo.members "g2") 0 "no such contact"
           eq_refl (last_first_fair 3) Hfails).
Defined.

(** A loader that invokes its callback once, from the event loop. *)
Lemma loadEarlierMessagesInChat_settles_with_the_callback_witness :
  WAPI.stub_loadEarlierMessages Demo.wapi "chat"
    (WAPI.world (Whatsapp.remote Demo.node)) = (Demo.once, 0)
  ∧ Promise.invocations Demo.once = 1
  ∧ invoked Demo.node
      (Whatsapp.loadEarlierMessagesInChat Demo.wapi "chat" Demo.node).2
    = [Call_loadEarlierMessages "chat"]
  ∧ (Whatsapp.loadEarlierMessagesInChat Demo.wapi "chat" Demo.node).1
    = Fulfilled (Handle ())
  ∧ ∃ p,
      (Whatsapp.loadEarlierMessagesInChat_pageFunction Demo.wapi "chat"
         (Whatsapp.remote Demo.node)).1 = Returned p
      ∧ Promise.settlements p = 1.
Proof.
  split; [reflexivity|]. split; [reflexivity|].
  destruct (loadEarlierMessagesInChat_settles_with_the_callback Demo.wapi
              "chat" Demo.node Demo.once 0 eq_refl)
    as (Hcalls & Hresult & p & Hp & Hcount & Honce).
  split; [exact Hcalls|]. split; [exact Hresult|].
  exists p. split; [exact Hp|].
  exact (proj1 (Honce eq_refl (λ _, eq_refl))).
Defined.

(** The claim as first stated fails: this loader invokes its callback
    exactly once, after it has thrown, and the call does not resolve: it
    rejects with what the loader threw. *)
Lemma loadEarlierMessagesInChat_one_callback_after_a_throw :
  Promise.invocations
    {| Promise.fired_during := @nil unit;
       Promise.raised := Some "boom"%string;
       Promise.fired_after := [()] |} = 1
  ∧ (Whatsapp.loadEarlierMessagesInChat
       (Demo.with_loader {| Promise.fired_during := [];
                            Promise.raised := Some "boom"%string;
                            Promise.fired_after := [()] |})
       "chat" Demo.node).1 = Rejected "boom"%string
  ∧ (Whatsapp.loadEarlierMessagesInChat
       (Demo.with_loader {| Promise.fired_during := [];
                            Promise.raised := Some "boom"%string;
                            Promise.fired_after := [()] |})
       "chat" Demo.node).1 ≠ Fulfilled (Handle ()).
Proof. split; [reflexivity|]. split; [reflexivity|discriminate]. Qed.

(** A lookup of a contact the page does not know. *)
Lemma keyed_read_failure_is_forwarded_witness :
  remote_failure Demo.wapi K_getContact "ghost"
    (WAPI.world (Whatsapp.remote Demo.node)) = Some "no such contact"%string
  ∧ facade_failure Demo.wapi K_getContact "ghost" Demo.node
    = Some "no such contact"%string.
Proof.
  split; [reflexivity|].
  exact (keyed_read_failure_is_forwarded Demo.wapi K_getContact "ghost"
           Demo.node "no such contact" eq_refl).
Defined.

(** A group without members. *)
Lemma getGroupMembers_of_empty_group_witness :
  WAPI.stub_getGroupParticipantIDs Demo.wapi "g3"
    (WAPI.world (Whatsapp.remote Demo.node)) = (Returned [], 0)
  ∧ (Whatsapp.getGroupMembers Demo.wapi Demo.last_first "g3" Demo.node).1
    = Fulfilled []
  ∧ invoked Demo.node
      (Whatsapp.getGroupMembers Demo.wapi Demo.last_first "g3" Demo.node).2
    = [Call_getGroupParticipantIDs "g3"].
Proof.
  split; [reflexivity|].
  destruct (getGroupMembers_of_empty_group Demo.wapi Demo.last_first "g3"
              Demo.node 0 eq_refl) as (Hresult & Hcalls & _).
  by split.
Defined.

(** ** More on [Promise.all]: failures, and promises that never settle *)

Section PromiseAllOutcomes.
Context {A : Type}.
Implicit Types (order rest : list nat) (outcomes : list (Outcome A)).
Implicit Types (s : Promise.AllState A).

Lemma at_most_once_length order k : at_most_once order k → length order ≤ k.
Proof.
  intros [Hnd Hlt]. trans (length (seq 0 k)); [|by rewrite length_seq].
  apply submseteq_length, NoDup_submseteq; [done|].
  intros i Hi. apply elem_of_seq. specialize (Hlt i Hi). lia.
Qed.

Lemma at_most_once_missing order k i :
  at_most_once order k → i < k → i ∉ order → length order < k.
Proof.
  intros [Hnd Hlt] Hi Hout.
  assert (length (i :: order) ≤ k) as Hlen; [|simpl in Hlen; lia].
  apply at_most_once_length. split; [by constructor|].
  intros j [->|Hj]%elem_of_cons; [done|by apply Hlt].
Qed.

Lemma fair_at_most_once order k : order ≡ₚ seq 0 k → at_most_once order k.
Proof.
  intros Hp. split; [rewrite Hp; apply NoDup_seq|].
  intros i. rewrite Hp, elem_of_seq. lia.
Qed.

Lemma first_thrown_in order outcomes e :
  first_thrown order outcomes = Some e → Thrown e ∈ outcomes.
Proof.
  induction order as [|i order IH]; simpl; [done|].
  destruct (outcomes !! i) as [[v|e']|] eqn:Hi; try done.
  intros [= ->]. by eapply list_elem_of_lookup_2.
Qed.

Lemma all_fold_rejected promises rest : ∀ s e,
  Promise.state (Promise.capability s) = Rejected e →
  Promise.state (Promise.capability
    (fold_left (Promise.all_react promises) rest s)) = Rejected e.
Proof.
  induction rest as [|i rest IH]; intros s e Hs; simpl; [done|].
  by apply IH, all_react_rejected.
Qed.

(** The first failing promise to settle rejects [Promise.all], which waits
    for no other promise then. *)
Lemma all_first_thrown_fold outcomes e rest : ∀ s,
  Promise.state (Promise.capability s) = Pending →
  length rest ≤ Promise.remainingElementsCount s →
  first_thrown rest outcomes = Some e →
  Promise.state (Promise.capability
    (fold_left (Promise.all_react (settle <$> outcomes)) rest s))
  = Rejected e.
Proof.
  induction rest as [|i rest IH]; intros s Hpen Hlen Hfirst; simpl in *;
    [done|].
  unfold Promise.all_react at 2. rewrite list_lookup_fmap.
  destruct (outcomes !! i) as [[v|e']|]; simpl.
  - assert (0 < length rest) by (destruct rest; [done|simpl; lia]).
    apply IH; simpl; [|lia|done].
    destruct (Nat.eqb_spec (pred (Promise.remainingElementsCount s)) 0);
      [lia|done].
  - injection Hfirst as ->. apply all_fold_rejected. simpl.
    unfold Promise.reject. by rewrite Hpen.
  - apply IH; [done|lia|done].
Qed.

Lemma all_first_thrown order outcomes e :
  length order ≤ length outcomes →
  first_thrown order outcomes = Some e →
  Promise.all order (settle <$> outcomes) = Rejected e.
Proof.
  intros Hlen Hfirst. unfold Promise.all. rewrite length_fmap.
  apply all_first_thrown_fold; simpl; [|done|done].
  apply first_thrown_in, list_elem_of_lookup_1 in Hfirst as [j Hj].
  apply lookup_lt_Some in Hj.
  destruct (Nat.eqb_spec (length outcomes) 0); [lia|done].
Qed.

(** While a promise is yet to settle and none has failed, [Promise.all]
    stays pending. *)
Lemma all_pending_fold outcomes rest : ∀ s,
  Promise.state (Promise.capability s) = Pending →
  length rest < Promise.remainingElementsCount s →
  first_thrown rest outcomes = None →
  Promise.state (Promise.capability
    (fold_left (Promise.all_react (settle <$> outcomes)) rest s))
  = Pending.
Proof.
  induction rest as [|i rest IH]; intros s Hpen Hlen Hnone; simpl in *;
    [done|].
  unfold Promise.all_react at 2. rewrite list_lookup_fmap.
  destruct (outcomes !! i) as [[v|e']|]; simpl; [|done|].
  - apply IH; simpl; [|lia|done].
    destruct (Nat.eqb_spec (pred (Promise.remainingElementsCount s)) 0);
      [lia|done].
  - apply IH; [done|lia|done].
Qed.

Lemma all_pending order outcomes i :
  at_most_once order (length outcomes) →
  i < length outcomes → i ∉ order →
  first_thrown order outcomes = None →
  Promise.all order (settle <$> outcomes) = Pending.
Proof.
  intros Honce Hi Hout Hnone. unfold Promise.all. rewrite length_fmap.
  apply all_pending_fold; simpl; [| |done].
  - destruct (Nat.eqb_spec (length outcomes) 0); [lia|done].
  - by eapply at_most_once_missing.
Qed.

(** The outcomes of lookups either all return or one of them throws. *)
Lemma outcomes_cases outcomes :
  (∃ vs, outcomes = Returned <$> vs) ∨ (∃ j e, outcomes !! j = Some (Thrown e)).
Proof.
  induction outcomes as [|[v|e] outcomes [[vs ->]|(j & e' & Hj)]].
  - left. by exists [].
  - left. by exists (v :: vs).
  - right. by exists (S j), e'.
  - right. by exists 0, e.
  - right. by exists 0, e.
Qed.

End PromiseAllOutcomes.

(** ** More on promises wrapping a callback *)

Section CallbackOutcomes.
Context {A B : Type}.
Variable f : B → A.
Implicit Types (run : Promise.CallbackRun B).

Lemma construct_silent (callback : B → Promise.t A → Promise.t A) run :
  silent run → Promise.construct callback run = Promise.fresh.
Proof.
  intros (Hduring & Hraised & Hafter). unfold Promise.construct.
  by rewrite Hduring, Hraised, Hafter.
Qed.

Lemma construct_throws_first run e :
  Promise.fired_during run = [] → Promise.raised run = Some e →
  Promise.state (Promise.construct (λ b, Promise.resolve (f b)) run)
  = Rejected e.
Proof.
  intros Hduring Hraised. unfold Promise.construct.
  rewrite Hduring, Hraised. by rewrite fire_settled.
Qed.

End CallbackOutcomes.

(** ** More properties of the facade *)

Section MoreFacadeFacts.
Context {World Contact Message Metadata Any Image Page Effect : Type}.
Variable wapi : WAPI.Stub World Contact Message Metadata Any Image.
Variable ExposedFn_OnMessage : string.
Variable completion_order : nat → list nat.

Local Abbreviation Node := (Whatsapp.Node World Message Page Effect).
Local Abbreviation Async := (@Whatsapp.Async World Message Page Effect).
Local Abbreviation MethodCall := (@Whatsapp.MethodCall Message Effect).
Implicit Types (n : Node) (w : World) (call : MethodCall).

(** *** One evaluation, seen from the caller *)

Lemma forward_run {A : Type} c (f : World → Outcome A * World) n :
  Whatsapp.bind (Whatsapp.evaluate (WAPI.invoke c f)) Whatsapp.ret n
  = (settle (f (WAPI.world (Whatsapp.remote n))).1,
     Whatsapp.log Op_evaluate
       {| WAPI.world := (f (WAPI.world (Whatsapp.remote n))).2;
          WAPI.calls := WAPI.calls (Whatsapp.remote n) ++ [c] |} n).
Proof. by rewrite await_return, evaluate_invoke. Qed.

Lemma evaluateHandle_callback {B C : Type} c
    (f : World → Promise.CallbackRun B * World)
    (callback : B → Promise.t C → Promise.t C) n :
  Whatsapp.bind
    (Whatsapp.evaluateHandle
       (WAPI.new_Promise (WAPI.invoke_callback c f) callback))
    Whatsapp.ret n
  = (match Promise.state
             (Promise.construct callback
                (f (WAPI.world (Whatsapp.remote n))).1) with
     | Fulfilled v => Fulfilled (Handle v)
     | Rejected e => Rejected e
     | Pending => Pending
     end,
     Whatsapp.log Op_evaluateHandle
       {| WAPI.world := (f (WAPI.world (Whatsapp.remote n))).2;
          WAPI.calls := WAPI.calls (Whatsapp.remote n) ++ [c] |} n).
Proof.
  rewrite await_return.
  unfold Whatsapp.evaluateHandle, WAPI.new_Promise, WAPI.bind,
    WAPI.invoke_callback, WAPI.ret.
  by destruct (f _).
Qed.

Lemma getGroupMembers_run_failed (order : nat → list nat) groupId n e w1 :
  WAPI.stub_getGroupParticipantIDs wapi groupId
    (WAPI.world (Whatsapp.remote n)) = (Thrown e, w1) →
  Whatsapp.getGroupMembers wapi order groupId n
  = (Rejected e,
     Whatsapp.log Op_evaluate
       {| WAPI.world := w1;
          WAPI.calls := WAPI.calls (Whatsapp.remote n)
                        ++ [Call_getGroupParticipantIDs groupId] |} n).
Proof.
  intros Hids. unfold Whatsapp.getGroupMembers.
  unfold Whatsapp.bind at 1.
  unfold Whatsapp.getGroupMembersId, WAPI.getGroupParticipantIDs.
  by rewrite forward_run, Hids.
Qed.

(** *** Results depend on the page alone *)

Lemma page_only_ret {A : Type} (v : A) : page_only (Whatsapp.ret v : Async A).
Proof. by intros n1 n2 Heq. Qed.

Lemma page_only_bind {A B : Type} (m : Async A) (k : A → Async B) :
  page_only m → (∀ v, page_only (k v)) →
  page_only (Whatsapp.bind m k : Async _).
Proof.
  intros Hm Hk n1 n2 Heq. unfold Whatsapp.bind.
  destruct (Hm n1 n2 Heq) as [Hr Hc].
  destruct (m n1) as [r1 n1'], (m n2) as [r2 n2']. simpl in *. subst r2.
  destruct r1 as [|v|e]; [done| |done]. by apply Hk.
Qed.

Lemma page_only_evaluate {A : Type} (f : WAPI.Remote World A) :
  page_only (Whatsapp.evaluate f : Async _).
Proof.
  intros n1 n2 Heq. unfold Whatsapp.evaluate. rewrite Heq.
  by destruct (f _).
Qed.

Lemma page_only_evaluateHandle {A : Type}
    (f : WAPI.Remote World (Promise.t A)) :
  page_only (Whatsapp.evaluateHandle f : Async _).
Proof.
  intros n1 n2 Heq. unfold Whatsapp.evaluateHandle. rewrite Heq.
  by destruct (f _).
Qed.

Lemma page_only_map_async {A B : Type} (f : A → Async B) (xs : list A) :
  (∀ x, page_only (f x)) →
  page_only (Whatsapp.started (Whatsapp.map_async f xs) : Async _).
Proof.
  intros Hf. unfold page_only, Whatsapp.started.
  induction xs as [|x xs IH]; intros n1 n2 Heq; simpl; [done|].
  destruct (Hf x n1 n2 Heq) as [Hr Hc].
  destruct (f x n1) as [r1 n1'], (f x n2) as [r2 n2']. simpl in *. subst r2.
  specialize (IH n1' n2' Hc).
  destruct (Whatsapp.map_async f xs n1') as [rs1 n1''],
           (Whatsapp.map_async f xs n2') as [rs2 n2'']. simpl in *.
  destruct IH as [[= ->] Hc']. done.
Qed.

Lemma page_only_Promise_all {A : Type} (actions : list (PromiseState A)) :
  page_only (Whatsapp.Promise_all completion_order actions : Async _).
Proof. by intros n1 n2 Heq. Qed.

Hint Resolve page_only_ret page_only_evaluate page_only_evaluateHandle
  page_only_Promise_all : facade.

Ltac page_only :=
  repeat first
    [ apply page_only_bind; [|intros ?]
    | apply page_only_map_async; intros ?
    | solve [auto with facade] ].

Lemma page_only_perform call :
  page_only (Page:=Page)
    (perform wapi ExposedFn_OnMessage completion_order call).
Proof.
  destruct call as [fn| | | | |b|b| | | | | | | | | |]; simpl.
  - by intros n1 n2 Heq.
  - unfold Whatsapp.sendText. page_only.
  - unfold Whatsapp.replyMessage. page_only.
  - unfold Whatsapp.sendContact. page_only.
  - unfold Whatsapp.getAllContacts. page_only.
  - unfold Whatsapp.getAllChats. destruct b; page_only.
  - unfold Whatsapp.getAllGroups. destruct b; page_only.
  - unfold Whatsapp.getGroupMembersId. page_only.
  - unfold Whatsapp.getGroupMembers, Whatsapp.getGroupMembersId,
      Whatsapp.getContact. page_only.
  - unfold Whatsapp.getGroupMetadata. page_only.
  - unfold Whatsapp.getProfilePicFromId. page_only.
  - unfold Whatsapp.getContact. page_only.
  - unfold Whatsapp.getMessageById. page_only.
  - unfold Whatsapp.areAllMessagesLoaded. page_only.
  - unfold Whatsapp.loadEarlierMessagesInChat. page_only.
  - unfold Whatsapp.loadAllEarlierMessagesInChat. page_only.
  - unfold Whatsapp.getAllMessagesInChat. page_only.
Qed.

(** *** Looking the members up one after the other *)

Lemma getContacts_in_turn_run ids : ∀ n contacts n2,
  getContacts_in_turn wapi ids n = (Fulfilled contacts, n2) →
  (lookups wapi (_serialized <$> ids) (WAPI.world (Whatsapp.remote n))).1
  = Returned <$> contacts
  ∧ n2 = (Whatsapp.map_async
            (λ memberId, Whatsapp.getContact wapi (_serialized memberId))
            ids n).2.
Proof.
  induction ids as [|id ids IH]; intros n contacts n2; simpl.
  - by intros [= <- <-].
  - unfold Whatsapp.bind at 1. rewrite getContact_run. simpl.
    change (list_fmap Id string _serialized ids) with (_serialized <$> ids).
    destruct (WAPI.stub_getContact wapi (_serialized id) _) as [[c|e] w1];
      simpl; [|done].
    unfold Whatsapp.bind at 1.
    destruct (getContacts_in_turn wapi ids _) as [[|cs|e] n'] eqn:Hrest;
      simpl; [done| |done].
    intros [= <- <-]. destruct (IH _ _ _ Hrest) as [Hlook ->]. simpl in Hlook.
    destruct (lookups wapi (_serialized <$> ids) w1) as [rs w2].
    simpl in *. subst rs.
    by destruct (Whatsapp.map_async _ ids _).
Qed.

(** *** Operations issued on the page handle *)

Lemma bind_snd {A B : Type} (m : Async A) (k : A → Async B) n :
  (∀ v n', (k v n').2 = n') → (Whatsapp.bind m k n).2 = (m n).2.
Proof.
  intros Hk. unfold Whatsapp.bind.
  destruct (m n) as [[|v|e] n']; simpl; [done|apply Hk|done].
Qed.

Lemma issued_evaluate {A : Type} (f : WAPI.Remote World A) n :
  Whatsapp.issued (Whatsapp.evaluate f n).2
  = Whatsapp.issued n ++ [(Whatsapp.page (Whatsapp.this n), Op_evaluate)].
Proof. unfold Whatsapp.evaluate. by destruct (f _). Qed.

Lemma issued_evaluateHandle {A : Type} (f : WAPI.Remote World (Promise.t A)) n :
  Whatsapp.issued (Whatsapp.evaluateHandle f n).2
  = Whatsapp.issued n
    ++ [(Whatsapp.page (Whatsapp.this n), Op_evaluateHandle)].
Proof. unfold Whatsapp.evaluateHandle. by destruct (f _). Qed.

(** *** Further properties read off the source *)

(** X1. If the query for the member identifiers fails, [getGroupMembers]
    rejects with that failure, after one evaluation in the page and without
    a single contact lookup. *)
Theorem getGroupMembers_member_query_fails groupId n e w1 :
  WAPI.stub_getGroupParticipantIDs wapi groupId
    (WAPI.world (Whatsapp.remote n)) = (Thrown e, w1) →
  (Whatsapp.getGroupMembers wapi completion_order groupId n).1 = Rejected e
  ∧ invoked n (Whatsapp.getGroupMembers wapi completion_order groupId n).2
    = [Call_getGroupParticipantIDs groupId]
  ∧ Whatsapp.issued
      (Whatsapp.getGroupMembers wapi completion_order groupId n).2
    = Whatsapp.issued n ++ [(Whatsapp.page (Whatsapp.this n), Op_evaluate)]
  ∧ WAPI.world
      (Whatsapp.remote
         (Whatsapp.getGroupMembers wapi completion_order groupId n).2) = w1.
Proof.
  intros Hids. rewrite (getGroupMembers_run_failed _ _ _ _ _ Hids). simpl.
  by rewrite invoked_log.
Qed.

(** X2. When member lookups fail, [getGroupMembers] rejects with the failure
    of the failing lookup that completes first, even while other lookups
    have not completed. *)
Theorem getGroupMembers_reports_first_failure groupId n ids w1 e :
  WAPI.stub_getGroupParticipantIDs wapi groupId
    (WAPI.world (Whatsapp.remote n)) = (Returned ids, w1) →
  at_most_once (completion_order (length ids)) (length ids) →
  first_thrown (completion_order (length ids))
    (lookups wapi (_serialized <$> ids) w1).1 = Some e →
  (Whatsapp.getGroupMembers wapi completion_order groupId n).1 = Rejected e.
Proof.
  intros Hids Honce Hfirst. rewrite (getGroupMembers_run _ _ _ _ _ _ Hids).
  simpl. apply all_first_thrown; [|done].
  rewrite lookups_length, length_fmap. by apply at_most_once_length.
Qed.

(** X3. [getGroupMembers] waits for every lookup: while one of them has not
    completed and none of the completed ones has failed, the call is not
    settled. *)
Theorem getGroupMembers_waits_for_every_lookup groupId n ids w1 i :
  WAPI.stub_getGroupParticipantIDs wapi groupId
    (WAPI.world (Whatsapp.remote n)) = (Returned ids, w1) →
  at_most_once (completion_order (length ids)) (length ids) →
  i < length ids →
  i ∉ completion_order (length ids) →
  first_thrown (completion_order (length ids))
    (lookups wapi (_serialized <$> ids) w1).1 = None →
  (Whatsapp.getGroupMembers wapi completion_order groupId n).1 = Pending.
Proof.
  intros Hids Honce Hi Hout Hnone.
  rewrite (getGroupMembers_run _ _ _ _ _ _ Hids). simpl.
  apply (all_pending _ _ i); rewrite ?lookups_length, ?length_fmap; done.
Qed.

(** X4. The order in which the lookups complete changes neither what
    [getGroupMembers] does to the page and the session nor whether it is
    fulfilled, and with what; the call is settled either way.  (Only the
    failure reported may differ.) *)
Theorem getGroupMembers_whatever_the_order
    (order1 order2 : nat → list nat) groupId n :
  (∀ k, order1 k ≡ₚ seq 0 k) →
  (∀ k, order2 k ≡ₚ seq 0 k) →
  (Whatsapp.getGroupMembers wapi order1 groupId n).2
  = (Whatsapp.getGroupMembers wapi order2 groupId n).2
  ∧ (∀ members,
       (Whatsapp.getGroupMembers wapi order1 groupId n).1 = Fulfilled members
       ↔ (Whatsapp.getGroupMembers wapi order2 groupId n).1
         = Fulfilled members)
  ∧ (Whatsapp.getGroupMembers wapi order1 groupId n).1 ≠ Pending
  ∧ (Whatsapp.getGroupMembers wapi order2 groupId n).1 ≠ Pending.
Proof.
  intros Hfair1 Hfair2.
  destruct (WAPI.stub_getGroupParticipantIDs wapi groupId
              (WAPI.world (Whatsapp.remote n))) as [[ids|e] w1] eqn:Hids.
  - rewrite !(getGroupMembers_run _ _ _ _ _ _ Hids). simpl.
    split; [done|].
    pose proof (lookups_length wapi (_serialized <$> ids) w1) as Hlen.
    rewrite length_fmap in Hlen.
    destruct (outcomes_cases (lookups wapi (_serialized <$> ids) w1).1)
      as [[vs Hvs]|(j & e & Hj)].
    + rewrite Hvs in *. rewrite length_fmap in Hlen.
      assert (∀ order, order ≡ₚ seq 0 (length ids) →
                Promise.all order (settle <$> (Returned <$> vs))
                = Fulfilled (Some <$> vs)) as Hall.
      { intros order Hfair. rewrite <- list_fmap_compose.
        apply all_fulfilled. by rewrite Hlen. }
      by rewrite !Hall.
    + destruct (all_rejected
                  (settle <$> (lookups wapi (_serialized <$> ids) w1).1)
                  (order1 (length ids)) j e) as (e1 & _ & ->);
        [by rewrite length_fmap, Hlen|by rewrite list_lookup_fmap, Hj|].
      destruct (all_rejected
                  (settle <$> (lookups wapi (_serialized <$> ids) w1).1)
                  (order2 (length ids)) j e) as (e2 & _ & ->);
        [by rewrite length_fmap, Hlen|by rewrite list_lookup_fmap, Hj|].
      done.
  - by rewrite !(getGroupMembers_run_failed _ _ _ _ _ Hids).
Qed.

(** X5. With [k] member identifiers, [getGroupMembers] costs [k + 1]
    evaluations in the page, whether the lookups succeed or fail: a failed
    lookup stops none of the others, and the page ends in the state the
    whole series of lookups leaves. *)
Theorem getGroupMembers_round_trips groupId n ids w1 :
  WAPI.stub_getGroupParticipantIDs wapi groupId
    (WAPI.world (Whatsapp.remote n)) = (Returned ids, w1) →
  Whatsapp.issued
    (Whatsapp.getGroupMembers wapi completion_order groupId n).2
  = Whatsapp.issued n
    ++ replicate (S (length ids))
         (Whatsapp.page (Whatsapp.this n), Op_evaluate)
  ∧ WAPI.world
      (Whatsapp.remote
         (Whatsapp.getGroupMembers wapi completion_order groupId n).2)
    = (lookups wapi (_serialized <$> ids) w1).2.
Proof.
  intros Hids. by rewrite (getGroupMembers_run _ _ _ _ _ _ Hids).
Qed.

(** X6. Every public method other than [getGroupMembers] issues exactly one
    operation on the page handle: [exposeFunction] for [onMessage],
    [evaluateHandle] for the three callback-style methods, [evaluate] for
    the others. *)
Theorem one_operation_per_call call n :
  is_getGroupMembers call = false →
  Whatsapp.issued
    (perform wapi ExposedFn_OnMessage completion_order call n).2
  = Whatsapp.issued n
    ++ [(Whatsapp.page (Whatsapp.this n),
         operation_of ExposedFn_OnMessage call)].
Proof.
  destruct call as [fn| | | | |b|b| | | | | | | | | |]; simpl;
    intros Hcall; try done;
    unfold Whatsapp.sendText, Whatsapp.replyMessage, Whatsapp.sendContact,
      Whatsapp.getAllContacts, Whatsapp.getAllChats, Whatsapp.getAllGroups,
      Whatsapp.getGroupMembersId, Whatsapp.getGroupMetadata,
      Whatsapp.getProfilePicFromId, Whatsapp.getContact,
      Whatsapp.getMessageById, Whatsapp.areAllMessagesLoaded,
      Whatsapp.loadEarlierMessagesInChat,
      Whatsapp.loadAllEarlierMessagesInChat, Whatsapp.getAllMessagesInChat;
    try destruct b;
    rewrite bind_snd by done;
    first [apply issued_evaluate|apply issued_evaluateHandle].
Qed.

(** X7. The facade keeps no state of its own between calls: what a call
    yields, and what it does to the page, depend on the page alone, not on
    the object it is made on nor on the calls made before. *)
Theorem results_depend_on_the_page_only call n1 n2 :
  Whatsapp.remote n1 = Whatsapp.remote n2 →
  (perform wapi ExposedFn_OnMessage completion_order call n1).1
  = (perform wapi ExposedFn_OnMessage completion_order call n2).1
  ∧ Whatsapp.remote
      (perform wapi ExposedFn_OnMessage completion_order call n1).2
    = Whatsapp.remote
        (perform wapi ExposedFn_OnMessage completion_order call n2).2.
Proof. apply page_only_perform. Qed.

(** X9. A callback-style method ([getProfilePicFromId],
    [loadEarlierMessagesInChat], [loadAllEarlierMessagesInChat]) whose
    loader neither invokes the callback nor throws is never settled: there
    is no timeout. *)
Theorem silent_loader_hangs call n :
  callback_use wapi call (WAPI.world (Whatsapp.remote n))
  = Some (0, None, 0) →
  (perform wapi ExposedFn_OnMessage completion_order call n).1 = Pending.
Proof.
  destruct call; simpl; try done; intros [= Hduring Hraised Hafter];
    unfold Whatsapp.getProfilePicFromId, Whatsapp.loadEarlierMessagesInChat,
      Whatsapp.loadAllEarlierMessagesInChat,
      Whatsapp.getProfilePicFromId_pageFunction,
      Whatsapp.loadEarlierMessagesInChat_pageFunction,
      Whatsapp.loadAllEarlierMessagesInChat_pageFunction,
      WAPI.getProfilePicFromId, WAPI.loadEarlierMessages,
      WAPI.loadAllEarlierMessages;
    rewrite evaluateHandle_callback; simpl;
    rewrite construct_silent; try done;
    by split_and!; [apply nil_length_inv| |apply nil_length_inv].
Qed.

(** X10. A callback-style method whose loader throws before it has invoked
    the callback rejects with what the loader threw, whatever the loader
    does with the callback later. *)
Theorem throwing_loader_rejects call n e later :
  callback_use wapi call (WAPI.world (Whatsapp.remote n))
  = Some (0, Some e, later) →
  (perform wapi ExposedFn_OnMessage completion_order call n).1 = Rejected e.
Proof.
  destruct call; simpl; try done; intros [= Hduring Hraised Hafter];
    unfold Whatsapp.getProfilePicFromId, Whatsapp.loadEarlierMessagesInChat,
      Whatsapp.loadAllEarlierMessagesInChat,
      Whatsapp.getProfilePicFromId_pageFunction,
      Whatsapp.loadEarlierMessagesInChat_pageFunction,
      Whatsapp.loadAllEarlierMessagesInChat_pageFunction,
      WAPI.getProfilePicFromId, WAPI.loadEarlierMessages,
      WAPI.loadAllEarlierMessages;
    rewrite evaluateHandle_callback; simpl.
  - by rewrite (construct_throws_first (λ img, img) _ e);
      [|apply nil_length_inv|].
  - by rewrite (construct_throws_first (λ _, ()) _ e);
      [|apply nil_length_inv|].
  - by rewrite (construct_throws_first (λ _, ()) _ e);
      [|apply nil_length_inv|].
Qed.

(** X11. [getProfilePicFromId(id)] hands [id] to
    [WAPI.getProfilePicFromId] and, the loader not throwing, is fulfilled
    with a handle on the picture passed to the first invocation of the
    callback; pictures passed to later invocations are dropped. *)
Theorem getProfilePicFromId_first_picture id n run w1 img later :
  WAPI.stub_getProfilePicFromId wapi id (WAPI.world (Whatsapp.remote n))
  = (run, w1) →
  Promise.raised run = None →
  Promise.fired_during run ++ Promise.fired_after run = img :: later →
  (Whatsapp.getProfilePicFromId wapi id n).1 = Fulfilled (Handle img)
  ∧ invoked n (Whatsapp.getProfilePicFromId wapi id n).2
    = [Call_getProfilePicFromId id].
Proof.
  intros Hrun Hreturns Hfirst.
  unfold Whatsapp.getProfilePicFromId,
    Whatsapp.getProfilePicFromId_pageFunction, WAPI.getProfilePicFromId.
  rewrite evaluateHandle_callback, Hrun. simpl.
  rewrite (construct_fulfilled (λ img, img) run img later Hreturns Hfirst).
  by rewrite invoked_log.
Qed.

(** X12. [loadAllEarlierMessagesInChat(chatId)] hands [chatId] to
    [WAPI.loadAllEarlierMessages], the loader of the whole history, and to
    nothing else; once the loader has invoked its callback, however many
    times, the promise wrapping the callback has been settled exactly once,
    and, the loader not throwing, the call is fulfilled. *)
Theorem loadAllEarlierMessagesInChat_settles_once chatId n run w1 :
  WAPI.stub_loadAllEarlierMessages wapi chatId
    (WAPI.world (Whatsapp.remote n)) = (run, w1) →
  0 < Promise.invocations run →
  invoked n (Whatsapp.loadAllEarlierMessagesInChat wapi chatId n).2
  = [Call_loadAllEarlierMessages chatId]
  ∧ ∃ p,
      (Whatsapp.loadAllEarlierMessagesInChat_pageFunction wapi chatId
         (Whatsapp.remote n)).1 = Returned p
      ∧ Promise.settlements p = 1
      ∧ (Promise.raised run = None →
         (Whatsapp.loadAllEarlierMessagesInChat wapi chatId n).1
         = Fulfilled (Handle ())).
Proof.
  intros Hrun Hfired.
  unfold Whatsapp.loadAllEarlierMessagesInChat.
  rewrite await_return. unfold Whatsapp.evaluateHandle.
  unfold Whatsapp.loadAllEarlierMessagesInChat_pageFunction,
    WAPI.new_Promise, WAPI.bind, WAPI.loadAllEarlierMessages,
    WAPI.invoke_callback, WAPI.ret.
  rewrite Hrun. simpl. split; [apply invoked_log|].
  eexists. split; [done|]. split.
  - by apply (construct_settled_once (λ _, ())).
  - intros Hreturns.
    destruct (Promise.fired_during run ++ Promise.fired_after run)
      as [|[] rest] eqn:Hfirst.
    { apply (f_equal length) in Hfirst. rewrite length_app in Hfirst.
      unfold Promise.invocations in Hfired. simpl in Hfirst. lia. }
    by rewrite (construct_fulfilled (λ _, ()) run () rest Hreturns Hfirst).
Qed.

(** X14. [replyMessage] invokes [WAPI.ReplyMessage] with its two arguments
    and nothing else (the chat is not marked as seen, as [sendText] does);
    [sendContact] invokes [WAPI.sendContact] with its two arguments and
    hands back what it returns.  Each settles as its [WAPI] function
    ends. *)
Theorem replies_and_contact_cards_are_forwarded
    messageId content to contactId n :
  (invoked n (Whatsapp.replyMessage wapi messageId content n).2
   = [Call_ReplyMessage messageId content]
   ∧ (Whatsapp.replyMessage wapi messageId content n).1
     = settle (WAPI.stub_ReplyMessage wapi messageId content
                 (WAPI.world (Whatsapp.remote n))).1)
  ∧ (invoked n (Whatsapp.sendContact wapi to contactId n).2
     = [Call_sendContact to contactId]
     ∧ (Whatsapp.sendContact wapi to contactId n).1
       = settle (WAPI.stub_sendContact wapi to contactId
                   (WAPI.world (Whatsapp.remote n))).1).
Proof.
  unfold Whatsapp.replyMessage, Whatsapp.sendContact, WAPI.ReplyMessage,
    WAPI.sendContact.
  rewrite !forward_run. simpl. by rewrite !invoked_log.
Qed.

(** X15. Each read of the facade invokes the one [WAPI] function it is
    named after (for [getGroupMembersId]: [WAPI.getGroupParticipantIDs]),
    with the key as it was passed in, and is fulfilled with the very value
    that function returns. *)
Theorem reads_are_forwarded key n :
  (invoked n (Whatsapp.getAllContacts wapi n).2 = [Call_getAllContacts]
   ∧ (Whatsapp.getAllContacts wapi n).1
     = settle (WAPI.stub_getAllContacts wapi
                 (WAPI.world (Whatsapp.remote n))).1)
  ∧ (invoked n (Whatsapp.getGroupMembersId wapi key n).2
     = [Call_getGroupParticipantIDs key]
     ∧ (Whatsapp.getGroupMembersId wapi key n).1
       = settle (WAPI.stub_getGroupParticipantIDs wapi key
                   (WAPI.world (Whatsapp.remote n))).1)
  ∧ (invoked n (Whatsapp.getGroupMetadata wapi key n).2
     = [Call_getGroupMetadata key]
     ∧ (Whatsapp.getGroupMetadata wapi key n).1
       = settle (WAPI.stub_getGroupMetadata wapi key
                   (WAPI.world (Whatsapp.remote n))).1)
  ∧ (invoked n (Whatsapp.getContact wapi key n).2 = [Call_getContact key]
     ∧ (Whatsapp.getContact wapi key n).1
       = settle (WAPI.stub_getContact wapi key
                   (WAPI.world (Whatsapp.remote n))).1)
  ∧ (invoked n (Whatsapp.getMessageById wapi key n).2
     = [Call_getMessageById key]
     ∧ (Whatsapp.getMessageById wapi key n).1
       = settle (WAPI.stub_getMessageById wapi key
                   (WAPI.world (Whatsapp.remote n))).1)
  ∧ (invoked n (Whatsapp.areAllMessagesLoaded wapi key n).2
     = [Call_areAllMessagesLoaded key]
     ∧ (Whatsapp.areAllMessagesLoaded wapi key n).1
       = settle (WAPI.stub_areAllMessagesLoaded wapi key
                   (WAPI.world (Whatsapp.remote n))).1)
  ∧ (invoked n (Whatsapp.getAllMessagesInChat wapi key n).2
     = [Call_getAllMessagesInChat key]
     ∧ (Whatsapp.getAllMessagesInChat wapi key n).1
       = settle (WAPI.stub_getAllMessagesInChat wapi key
                   (WAPI.world (Whatsapp.remote n))).1).
Proof.
  unfold Whatsapp.getAllContacts, Whatsapp.getGroupMembersId,
    Whatsapp.getGroupMetadata, Whatsapp.getContact, Whatsapp.getMessageById,
    Whatsapp.areAllMessagesLoaded, Whatsapp.getAllMessagesInChat,
    WAPI.getAllContacts, WAPI.getGroupParticipantIDs, WAPI.getGroupMetadata,
    WAPI.getContact, WAPI.getMessageById, WAPI.areAllMessagesLoaded,
    WAPI.getAllMessagesInChat.
  rewrite !forward_run. simpl. by rewrite !invoked_log.
Qed.

(** X16. When a client gets the member identifiers with [getGroupMembersId]
    and then looks the members up with [getContact], awaiting one lookup
    after the other, and all of this succeeds, [getGroupMembers] yields the
    same contacts in the same order and leaves the page and the session in
    the very same state, in whatever order its own lookups complete. *)
Theorem getGroupMembers_as_lookups_in_turn groupId n ids n1 contacts n2 :
  Whatsapp.getGroupMembersId wapi groupId n = (Fulfilled ids, n1) →
  getContacts_in_turn wapi ids n1 = (Fulfilled contacts, n2) →
  completion_order (length ids) ≡ₚ seq 0 (length ids) →
  Whatsapp.getGroupMembers wapi completion_order groupId n
  = (Fulfilled (Some <$> contacts), n2).
Proof.
  intros Hids Hturn Hfair.
  unfold Whatsapp.getGroupMembersId, WAPI.getGroupParticipantIDs in Hids.
  rewrite forward_run in Hids.
  destruct (WAPI.stub_getGroupParticipantIDs wapi groupId
              (WAPI.world (Whatsapp.remote n))) as [[ids'|e] w1] eqn:Hstub;
    simpl in Hids; [|done].
  injection Hids as -> <-.
  apply getContacts_in_turn_run in Hturn as [Hlook ->]. simpl in Hlook.
  rewrite (getGroupMembers_run _ _ _ _ _ _ Hstub), map_async_getContact.
  simpl. rewrite Hlook, <- list_fmap_compose. f_equal.
  - apply all_fulfilled.
    assert (length ids = length contacts) as <-; [|done].
    rewrite <- (length_fmap _serialized ids).
    rewrite <- (lookups_length wapi (_serialized <$> ids) w1), Hlook.
    apply length_fmap.
  - by rewrite <- !app_assoc.
Qed.

End MoreFacadeFacts.

(** ** The further properties against stub pages *)

Lemma first_and_last_once : at_most_once [0; 2] 3.
Proof.
  split; [compute_done|].
  intros i Hi. apply list_elem_of_In in Hi. simpl in Hi. lia.
Defined.

(** With two lookups failing, each in its own way, the failure reported is
    that of the one completing first. *)
Example getGroupMembers_failure_follows_completion :
  (Whatsapp.getGroupMembers
     (Scenario.page (λ _, Returned Scenario.trio) Scenario.two_unknown
        Scenario.quiet Scenario.quiet)
     (seq 0) "g" Demo.node).1 = Rejected "a is unknown"%string
  ∧ (Whatsapp.getGroupMembers
       (Scenario.page (λ _, Returned Scenario.trio) Scenario.two_unknown
          Scenario.quiet Scenario.quiet)
       Demo.last_first "g" Demo.node).1 = Rejected "c is unknown"%string.
Proof. split; reflexivity. Qed.

(** A failing lookup completes while another never does: the call rejects
    all the same. *)
Example getGroupMembers_rejects_while_a_lookup_hangs :
  (Whatsapp.getGroupMembers
     (Scenario.page (λ _, Returned Scenario.trio) Scenario.two_unknown
        Scenario.quiet Scenario.quiet)
     (λ _, [1; 2]) "g" Demo.node).1 = Rejected "c is unknown"%string.
Proof. reflexivity. Qed.

(** Awaiting the lookups in turn stops at the first failure; the lookups of
    [getGroupMembers] all reach the page. *)
Example lookups_in_turn_stop_at_a_failure :
  invoked Demo.node
    (getContacts_in_turn Demo.wapi (Demo.members "g2") Demo.node).2
  = [Call_getContact "a"; Call_getContact "ghost"]
  ∧ invoked Demo.node
      (Whatsapp.getGroupMembers Demo.wapi Demo.last_first "g2" Demo.node).2
    = [Call_getGroupParticipantIDs "g2"; Call_getContact "a";
       Call_getContact "ghost"; Call_getContact "b"].
Proof. split; reflexivity. Qed.

Lemma getGroupMembers_member_query_fails_witness :
  WAPI.stub_getGroupParticipantIDs
    (Scenario.page (λ _, Thrown "no such group"%string) Scenario.known
       Scenario.quiet Scenario.quiet)
    "g" (WAPI.world (Whatsapp.remote Demo.node))
  = (Thrown "no such group"%string, 0)
  ∧ (Whatsapp.getGroupMembers
       (Scenario.page (λ _, Thrown "no such group"%string) Scenario.known
          Scenario.quiet Scenario.quiet)
       Demo.last_first "g" Demo.node).1 = Rejected "no such group"%string
  ∧ invoked Demo.node
      (Whatsapp.getGroupMembers
         (Scenario.page (λ _, Thrown "no such group"%string) Scenario.known
            Scenario.quiet Scenario.quiet)
         Demo.last_first "g" Demo.node).2
    = [Call_getGroupParticipantIDs "g"].
Proof.
  split; [reflexivity|].
  destruct (getGroupMembers_member_query_fails
              (Scenario.page (λ _, Thrown "no such group"%string)
                 Scenario.known Scenario.quiet Scenario.quiet)
              Demo.last_first "g" Demo.node "no such group" 0 eq_refl)
    as (Hresult & Hcalls & _).
  by split.
Defined.

Lemma getGroupMembers_reports_first_failure_witness :
  WAPI.stub_getGroupParticipantIDs
    (Scenario.page (λ _, Returned Scenario.trio) Scenario.two_unknown
       Scenario.quiet Scenario.quiet)
    "g" (WAPI.world (Whatsapp.remote Demo.node))
  = (Returned Scenario.trio, 0)
  ∧ at_most_once (Demo.last_first 3) 3
  ∧ first_thrown (Demo.last_first 3)
      (lookups
         (Scenario.page (λ _, Returned Scenario.trio) Scenario.two_unknown
            Scenario.quiet Scenario.quiet)
         (_serialized <$> Scenario.trio) 0).1 = Some "c is unknown"%string
  ∧ (Whatsapp.getGroupMembers
       (Scenario.page (λ _, Returned Scenario.trio) Scenario.two_unknown
          Scenario.quiet Scenario.quiet)
       Demo.last_first "g" Demo.node).1 = Rejected "c is unknown"%string.
Proof.
  split; [reflexivity|].
  split; [exact (fair_at_most_once _ _ (last_first_fair 3))|].
  split; [reflexivity|].
  exact (getGroupMembers_reports_first_failure
           (Scenario.page (λ _, Returned Scenario.trio) Scenario.two_unknown
              Scenario.quiet Scenario.quiet)
           Demo.last_first "g" Demo.node Scenario.trio 0 "c is unknown"
           eq_refl (fair_at_most_once _ _ (last_first_fair 3)) eq_refl).
Defined.

(** The lookup for ["b"] never completes. *)
Lemma getGroupMembers_waits_for_every_lookup_witness :
  WAPI.stub_getGroupParticipantIDs
    (Scenario.page (λ _, Returned Scenario.trio) Scenario.known
       Scenario.quiet Scenario.quiet)
    "g" (WAPI.world (Whatsapp.remote Demo.node))
  = (Returned Scenario.trio, 0)
  ∧ at_most_once [0; 2] 3
  ∧ 1 < 3
  ∧ (1 ∉ [0; 2])
  ∧ first_thrown [0; 2]
      (lookups
         (Scenario.page (λ _, Returned Scenario.trio) Scenario.known
            Scenario.quiet Scenario.quiet)
         (_serialized <$> Scenario.trio) 0).1 = None
  ∧ (Whatsapp.getGroupMembers
       (Scenario.page (λ _, Returned Scenario.trio) Scenario.known
          Scenario.quiet Scenario.quiet)
       (λ _, [0; 2]) "g" Demo.node).1 = Pending.
Proof.
  assert (1 ∉ [0; 2]) as Hout by compute_done.
  split; [reflexivity|]. split; [exact first_and_last_once|].
  split; [lia|]. split; [exact Hout|]. split; [reflexivity|].
  exact (getGroupMembers_waits_for_every_lookup
           (Scenario.page (λ _, Returned Scenario.trio) Scenario.known
              Scenario.quiet Scenario.quiet)
           (λ _, [0; 2]) "g" Demo.node Scenario.trio 0 1
           eq_refl first_and_last_once (le_S 2 2 (le_n 2)) Hout eq_refl).
Defined.

Lemma getGroupMembers_whatever_the_order_witness :
  (∀ k, Demo.last_first k ≡ₚ seq 0 k)
  ∧ (∀ k, seq 0 k ≡ₚ seq 0 k)
  ∧ (Whatsapp.getGroupMembers Demo.wapi Demo.last_first "g1" Demo.node).2
    = (Whatsapp.getGroupMembers Demo.wapi (seq 0) "g1" Demo.node).2
  ∧ ((Whatsapp.getGroupMembers Demo.wapi Demo.last_first "g1" Demo.node).1
     = Fulfilled [Some "contact a"; Some "contact b"]%string
     ↔ (Whatsapp.getGroupMembers Demo.wapi (seq 0) "g1" Demo.node).1
       = Fulfilled [Some "contact a"; Some "contact b"]%string).
Proof.
  split; [exact last_first_fair|]. split; [reflexivity|].
  destruct (getGroupMembers_whatever_the_order Demo.wapi
              Demo.last_first (seq 0) "g1" Demo.node
              last_first_fair (λ k, reflexivity (seq 0 k)))
    as (Hstate & Hresult & _).
  split; [exact Hstate|apply Hresult].
Defined.

(** Three members, one of them unknown: four evaluations all the same. *)
Lemma getGroupMembers_round_trips_witness :
  WAPI.stub_getGroupParticipantIDs Demo.wapi "g2"
    (WAPI.world (Whatsapp.remote Demo.node))
  = (Returned (Demo.members "g2"), 0)
  ∧ Whatsapp.issued
      (Whatsapp.getGroupMembers Demo.wapi Demo.last_first "g2" Demo.node).2
    = [(7, Op_evaluate); (7, Op_evaluate); (7, Op_evaluate);
       (7, Op_evaluate)].
Proof.
  split; [reflexivity|].
  exact (proj1 (getGroupMembers_round_trips Demo.wapi Demo.last_first "g2"
                  Demo.node (Demo.members "g2") 0 eq_refl)).
Defined.

Lemma one_operation_per_call_witness :
  is_getGroupMembers
    (Whatsapp.M_loadEarlierMessagesInChat "chat"
     : @Whatsapp.MethodCall string unit) = false
  ∧ Whatsapp.issued
      (perform Demo.wapi "onMessage" Demo.last_first
         (Whatsapp.M_loadEarlierMessagesInChat "chat") Demo.node).2
    = [(7, Op_evaluateHandle)].
Proof.
  split; [reflexivity|].
  exact (one_operation_per_call Demo.wapi "onMessage" Demo.last_first
           (Whatsapp.M_loadEarlierMessagesInChat "chat") Demo.node eq_refl).
Defined.

(** The same call on a new object and on another one, with another page
    handle and a message handler registered, facing the same page. *)
Lemma results_depend_on_the_page_only_witness :
  Whatsapp.remote Demo.node
  = Whatsapp.remote
      (Whatsapp.onMessage "onMessage" (λ _ : string, ())
         (Whatsapp.boot 9 (Whatsapp.remote Demo.node)))
  ∧ (perform Demo.wapi "onMessage" Demo.last_first
       (Whatsapp.M_getGroupMembers "g1") Demo.node).1
    = (perform Demo.wapi "onMessage" Demo.last_first
         (Whatsapp.M_getGroupMembers "g1")
         (Whatsapp.onMessage "onMessage" (λ _ : string, ())
            (Whatsapp.boot 9 (Whatsapp.remote Demo.node)))).1.
Proof.
  split; [reflexivity|].
  exact (proj1 (results_depend_on_the_page_only Demo.wapi "onMessage"
                  Demo.last_first (Whatsapp.M_getGroupMembers "g1")
                  Demo.node
                  (Whatsapp.onMessage "onMessage" (λ _ : string, ())
                     (Whatsapp.boot 9 (Whatsapp.remote Demo.node)))
                  eq_refl)).
Defined.

Lemma silent_loader_hangs_witness :
  callback_use
    (Scenario.page (λ _, Returned []) Scenario.known Scenario.quiet
       Scenario.quiet)
    (Whatsapp.M_loadAllEarlierMessagesInChat "chat"
     : @Whatsapp.MethodCall string unit)
    (WAPI.world (Whatsapp.remote Demo.node)) = Some (0, None, 0)
  ∧ (perform
       (Scenario.page (λ _, Returned []) Scenario.known Scenario.quiet
          Scenario.quiet)
       "onMessage" Demo.last_first
       (Whatsapp.M_loadAllEarlierMessagesInChat "chat") Demo.node).1
    = Pending.
Proof.
  split; [reflexivity|].
  exact (silent_loader_hangs
           (Scenario.page (λ _, Returned []) Scenario.known Scenario.quiet
              Scenario.quiet)
           "onMessage" Demo.last_first
           (Whatsapp.M_loadAllEarlierMessagesInChat "chat") Demo.node
           eq_refl).
Defined.

Lemma throwing_loader_rejects_witness :
  callback_use
    (Scenario.page (λ _, Returned []) Scenario.known Scenario.quiet
       Scenario.broken)
    (Whatsapp.M_getProfilePicFromId "a" : @Whatsapp.MethodCall string unit)
    (WAPI.world (Whatsapp.remote Demo.node))
  = Some (0, Some "loader broke"%string, 0)
  ∧ (perform
       (Scenario.page (λ _, Returned []) Scenario.known Scenario.quiet
          Scenario.broken)
       "onMessage" Demo.last_first
       (Whatsapp.M_getProfilePicFromId "a") Demo.node).1
    = Rejected "loader broke"%string.
Proof.
  split; [reflexivity|].
  exact (throwing_loader_rejects
           (Scenario.page (λ _, Returned []) Scenario.known Scenario.quiet
              Scenario.broken)
           "onMessage" Demo.last_first
           (Whatsapp.M_getProfilePicFromId "a") Demo.node
           "loader broke" 0 eq_refl).
Defined.

Lemma getProfilePicFromId_first_picture_witness :
  WAPI.stub_getProfilePicFromId
    (Scenario.page (λ _, Returned []) Scenario.known Scenario.quiet
       Scenario.pictures)
    "a" (WAPI.world (Whatsapp.remote Demo.node)) = (Scenario.pictures, 0)
  ∧ Promise.raised Scenario.pictures = None
  ∧ Promise.fired_during Scenario.pictures
    ++ Promise.fired_after Scenario.pictures
    = ["first.png"; "second.png"]%string
  ∧ (Whatsapp.getProfilePicFromId
       (Scenario.page (λ _, Returned []) Scenario.known Scenario.quiet
          Scenario.pictures)
       "a" Demo.node).1 = Fulfilled (Handle "first.png"%string).
Proof.
  split; [reflexivity|]. split; [reflexivity|]. split; [reflexivity|].
  exact (proj1 (getProfilePicFromId_first_picture
                  (Scenario.page (λ _, Returned []) Scenario.known
                     Scenario.quiet Scenario.pictures)
                  "a" Demo.node Scenario.pictures 0
                  "first.png" ["second.png"%string]
                  eq_refl eq_refl eq_refl)).
Defined.

(** A loader of the whole history that invokes its callback twice. *)
Lemma loadAllEarlierMessagesInChat_settles_once_witness :
  WAPI.stub_loadAllEarlierMessages
    (Scenario.page (λ _, Returned []) Scenario.known Scenario.twice
       Scenario.quiet)
    "chat" (WAPI.world (Whatsapp.remote Demo.node)) = (Scenario.twice, 0)
  ∧ 0 < Promise.invocations Scenario.twice
  ∧ invoked Demo.node
      (Whatsapp.loadAllEarlierMessagesInChat
         (Scenario.page (λ _, Returned []) Scenario.known Scenario.twice
            Scenario.quiet)
         "chat" Demo.node).2 = [Call_loadAllEarlierMessages "chat"]
  ∧ (Whatsapp.loadAllEarlierMessagesInChat
       (Scenario.page (λ _, Returned []) Scenario.known Scenario.twice
          Scenario.quiet)
       "chat" Demo.node).1 = Fulfilled (Handle ()).
Proof.
  split; [reflexivity|]. split; [exact (le_S 1 1 (le_n 1))|].
  destruct (loadAllEarlierMessagesInChat_settles_once
              (Scenario.page (λ _, Returned []) Scenario.known
                 Scenario.twice Scenario.quiet)
              "chat" Demo.node Scenario.twice 0 eq_refl
              (le_S 1 1 (le_n 1)))
    as [Hcalls (p & _ & _ & Hfulfilled)].
  split; [exact Hcalls|exact (Hfulfilled eq_refl)].
Defined.

Lemma getGroupMembers_as_lookups_in_turn_witness :
  Whatsapp.getGroupMembersId Demo.wapi "g1" Demo.node
  = (Fulfilled (Demo.members "g1"),
     (Whatsapp.getGroupMembersId Demo.wapi "g1" Demo.node).2)
  ∧ getContacts_in_turn Demo.wapi (Demo.members "g1")
      (Whatsapp.getGroupMembersId Demo.wapi "g1" Demo.node).2
    = (Fulfilled ["contact a"; "contact b"]%string,
       (getContacts_in_turn Demo.wapi (Demo.members "g1")
          (Whatsapp.getGroupMembersId Demo.wapi "g1" Demo.node).2).2)
  ∧ Demo.last_first 2 ≡ₚ seq 0 2
  ∧ Whatsapp.getGroupMembers Demo.wapi Demo.last_first "g1" Demo.node
    = (Fulfilled [Some "contact a"; Some "contact b"]%string,
       (getContacts_in_turn Demo.wapi (Demo.members "g1")
          (Whatsapp.getGroupMembersId Demo.wapi "g1" Demo.node).2).2).
Proof.
  split; [reflexivity|]. split; [reflexivity|].
  split; [exact (last_first_fair 2)|].
  exact (getGroupMembers_as_lookups_in_turn Demo.wapi Demo.last_first "g1"
           Demo.node (Demo.members "g1") _
           ["contact a"; "contact b"]%string _
           eq_refl eq_refl (last_first_fair 2)).
Defined.
